(** * RadixLib wallet: a shallow embedding of [src/Radix/wallet.py]

    The [Wallet] class connects a provider (the ledger's RPC client) with a
    signer and offers three operations: [get_balances],
    [get_balance_of_token] and [build_sign_and_send_transaction].  The
    provider and the signer are external collaborators; they are modelled as
    oracles over an abstract world state, and every call made to them is
    recorded in a trace so that statements such as "the signer is never
    invoked" can be expressed. *)

From stdpp Require Import base option list strings gmap fin_maps countable pretty.
From Stdlib Require Import ZArith Ascii.

Local Open Scope Z_scope.
Local Open Scope string_scope.
Local Set Warnings "-register-all,-clear-no-such-hyp".

(** ** Decoded JSON values

    What [requests.Response.json()] hands to the wallet: [None], booleans,
    integers, strings, lists and dicts.  A dict is kept as its list of
    items in insertion order (the order is visible in [str(response)]);
    decoded dicts have no repeated key.  Numbers with a fraction or an
    exponent (Python floats) are not part of this model. *)

Inductive json : Type :=
| JNull
| JBool (b : bool)
| JInt (z : Z)
| JStr (s : string)
| JList (l : list json)
| JDict (items : list (string * json)).

(** ** Python exceptions, as far as the wallet can raise or forward them *)

Inductive PyExc : Type :=
| KeyError (arg : string)        (* a missing key, or the message of an explicit raise *)
| TypeError                      (* subscripting, iterating or hashing the wrong type *)
| ValueError                     (* int() on a string that is no integer literal *)
| AttributeError                 (* .keys() on a non-dict, assignment to a read-only property *)
| Exception (msg : string)       (* raise Exception(...) *)
| Foreign (name : string).       (* anything raised inside a collaborator (transport, decoding) *)

Inductive Exc (A : Type) : Type :=
| OK (a : A)
| Raise (e : PyExc).
Arguments OK {A} a.
Arguments Raise {A} e.

Definition exc_bind {A B} (x : Exc A) (f : A -> Exc B) : Exc B :=
  match x with
  | OK a => f a
  | Raise e => Raise e
  end.

(** [try: x except: y] with a bare [except] clause. *)
Definition try_except {A} (x : Exc A) (handler : Exc A) : Exc A :=
  match x with
  | OK a => OK a
  | Raise _ => handler
  end.

Global Instance Exc_ret : MRet Exc := @OK.
Global Instance Exc_bind : MBind Exc := fun A B f x => exc_bind x f.

(** ** Dynamic operations on decoded values *)

(** First item stored under [k]; decoded dicts hold at most one. *)
Fixpoint dict_get (k : string) (items : list (string * json)) : option json :=
  match items with
  | [] => None
  | (k', v) :: rest => if String.eqb k k' then Some v else dict_get k rest
  end.

(** [v[k]] for a string key [k]. *)
Definition subscript (v : json) (k : string) : Exc json :=
  match v with
  | JDict items =>
      match dict_get k items with
      | Some x => OK x
      | None => Raise (KeyError k)
      end
  | _ => Raise TypeError
  end.

(** [v.keys()]: only dicts have the method. *)
Definition keys (v : json) : Exc (list string) :=
  match v with
  | JDict items => OK (items.*1)
  | _ => Raise AttributeError
  end.

(** ['error' in v.keys()] *)
Definition has_error_key (v : json) : Exc bool :=
  ks ← keys v; OK (bool_decide ("error" ∈ ks)).

Definition chars (s : string) : list json :=
  (fun c => JStr (String c EmptyString)) <$> String.list_ascii_of_string s.

(** [for x in v]: a list yields its elements, a dict its keys, a string its
    characters; nothing else is iterable. *)
Definition iterate (v : json) : Exc (list json) :=
  match v with
  | JList l => OK l
  | JDict items => OK (JStr <$> items.*1)
  | JStr s => OK (chars s)
  | _ => Raise TypeError
  end.

(** Keys of a Python dict, up to Python's [==]: [True == 1] and
    [False == 0] denote the same key. *)
Inductive pykey : Type :=
| KNone
| KInt (z : Z)
| KStr (s : string).

Global Instance pykey_eq_dec : EqDecision pykey.
Proof. solve_decision. Defined.

Global Instance pykey_countable : Countable pykey.
Proof.
  refine (inj_countable'
    (fun k => match k with
              | KNone => inl ()
              | KInt z => inr (inl z)
              | KStr s => inr (inr s)
              end)
    (fun x => match x with
              | inl _ => KNone
              | inr (inl z) => KInt z
              | inr (inr s) => KStr s
              end) _).
  by intros [].
Defined.

(** [hash(v)] as needed to use [v] as a dict key: lists and dicts are
    unhashable. *)
Definition hashable (v : json) : Exc pykey :=
  match v with
  | JNull => OK KNone
  | JBool b => OK (KInt (if b then 1 else 0))
  | JInt z => OK (KInt z)
  | JStr s => OK (KStr s)
  | JList _ | JDict _ => Raise TypeError
  end.

(** Modelled from the spec: the [Network] enumeration imported from
    [Radix/network.py], which is not part of the sources at hand; the spec
    lists its two kinds, the main network and any other. *)
Inductive Network : Type :=
| MAINNET
| OTHER_NETWORK.

Global Instance Network_eq_dec : EqDecision Network.
Proof. solve_decision. Defined.

(** [actions: Union[Action, List[Action]]] *)
Inductive ActionArg (Action : Type) : Type :=
| one_action (a : Action)
| action_list (l : list Action).
Arguments one_action {Action} a.
Arguments action_list {Action} l.

(** ** Collaborators, the wallet object and the monad of its methods *)

(** The builtins [str()], as used by the f-strings of the error messages,
    and [int()] on strings ([None] where Python raises [ValueError]). *)
Class Builtins : Type := {
  py_str : json -> string;
  int_of_str : string -> option Z
}.

Section Wallet.

(** The classes [Provider], [Signer] and [Action] are imported by
    [wallet.py] from sibling modules; the wallet only calls their methods.
    [Action] objects are opaque to it, and [World] is the state of
    everything outside of it (ledger, network, key store). *)
Context {Action World : Type} {builtins : Builtins}.

(** [int(v)] *)
Definition py_int (v : json) : Exc Z :=
  match v with
  | JInt z => OK z
  | JBool b => OK (if b then 1 else 0)
  | JStr s =>
      match int_of_str s with
      | Some z => OK z
      | None => Raise ValueError
      end
  | JNull | JList _ | JDict _ => Raise TypeError
  end.

(** A provider method followed by [.json()] is one oracle step: it reads
    and updates the world and yields the decoded body or an exception. *)
Record Provider : Type := mkProvider {
  network : Network;
  rpc_get_balances : string -> World -> Exc json * World;
  rpc_build_transaction :
    ActionArg Action -> string -> option string -> World -> Exc json * World;
  rpc_finalize_transaction :
    json -> string -> string -> bool -> World -> Exc json * World
}.

Record Signer : Type := mkSigner {
  key_wallet_address : Z -> bool -> World -> Exc string * World;
  key_sign : json -> Z -> World -> Exc string * World;
  key_public_key : Z -> World -> Exc string * World
}.

(** The calls a wallet can make to its collaborators, with their
    arguments as passed. *)
Inductive Call : Type :=
| signer_wallet_address (index : Z) (mainnet : bool)
| signer_sign (data : json) (index : Z)
| signer_public_key (index : Z)
| provider_get_balances (address : string)
| provider_build_transaction
    (actions : ActionArg Action) (fee_payer : string) (message : option string)
| provider_finalize_transaction
    (blob : json) (signature_der : string) (public_key_of_signer : string)
    (immediateSubmit : bool).

(** The three private attributes set by [__init__]. *)
Record Wallet : Type := {
  __provider : Provider;
  __signer : Signer;
  __index : Z
}.

(** [Wallet(provider, signer, index = 0)] *)
Definition __init__ (provider : Provider) (signer : Signer) (index : option Z) : Wallet :=
  {| __provider := provider; __signer := signer; __index := default 0 index |}.

Record State : Type := mkState {
  self : Wallet;
  world : World;
  trace : list Call
}.

Definition M (A : Type) : Type := State -> Exc A * State.

Definition ret {A} (a : A) : M A := fun s => (OK a, s).

Definition raise {A} (e : PyExc) : M A := fun s => (Raise e, s).

Definition bind {A B} (m : M A) (f : A -> M B) : M B :=
  fun s =>
    match m s with
    | (OK a, s') => f a s'
    | (Raise e, s') => (Raise e, s')
    end.

Definition lift {A} (x : Exc A) : M A := fun s => (x, s).

(** Attribute read on [self]. *)
Definition attr {A} (field : Wallet -> A) : M A := fun s => (OK (field (self s)), s).

(** One call to a collaborator: the oracle answers and moves the world,
    the call is appended to the trace. *)
Definition invoke {A} (c : Call) (oracle : World -> Exc A * World) : M A :=
  fun s =>
    let (r, w) := oracle (world s) in
    (r, {| self := self s; world := w; trace := trace s ++ [c] |}).

Global Instance M_ret : MRet M := @ret.
Global Instance M_bind : MBind M := fun A B f m => bind m f.

(** ** The class *)

Definition provider : M Provider := attr __provider.
Definition signer : M Signer := attr __signer.
Definition index : M Z := attr __index.

(** One [token_info] of the comprehension: key expression, value
    expression, then the key is hashed for the insertion. *)
Definition token_entry (token_info : json) : Exc (pykey * Z) :=
  rri ← subscript token_info "rri";
  amount ← subscript token_info "amount";
  n ← py_int amount;
  k ← hashable rri;
  OK (k, n).

(** [{key: value for token_info in infos}], filled from left to right. *)
Fixpoint dict_comprehension (infos : list json) (acc : gmap pykey Z) : Exc (gmap pykey Z) :=
  match infos with
  | [] => OK acc
  | token_info :: rest =>
      kn ← token_entry token_info;
      dict_comprehension rest (<[kn.1 := kn.2]> acc)
  end.

Definition balances_of_response (response : json) : Exc (gmap pykey Z) :=
  result ← subscript response "result";
  token_balances ← subscript result "tokenBalances";
  infos ← iterate token_balances;
  dict_comprehension infos ∅.

Definition is_mainnet (n : Network) : bool :=
  match n with
  | MAINNET => true
  | OTHER_NETWORK => false
  end.

Definition get_balances : M (gmap pykey Z) :=
  p ← provider;
  sg ← signer;
  i ← index;
  p' ← provider;
  address ← invoke (signer_wallet_address i (is_mainnet (network p')))
                    (key_wallet_address sg i (is_mainnet (network p')));
  response ← invoke (provider_get_balances address) (rpc_get_balances p address);
  failed ← lift (has_error_key response);
  if failed : bool then
    raise (KeyError
      ("Encountered an error when trying to get the balances: " ++ py_str response))
  else lift (balances_of_response response).

Definition get_balance_of_token (token_rri : json) : M Z :=
  balances ← get_balances;
  k ← lift (hashable token_rri);
  let balance := balances !! k in
  mret (match balance with None => 0 | Some b => b end).

(** [response['result']['txID']], falling back on
    [response['result']['transaction']['txID']] under a bare [except]. *)
Definition extract_txid (response : json) : Exc json :=
  try_except
    (result ← subscript response "result"; subscript result "txID")
    (result ← subscript response "result";
     transaction ← subscript result "transaction";
     subscript transaction "txID").

Definition build_sign_and_send_transaction
    (actions : ActionArg Action) (fee_payer : string)
    (message : option string) (encrypt_message : bool) : M json :=
  p ← provider;
  response ← invoke (provider_build_transaction actions fee_payer message)
                     (rpc_build_transaction p actions fee_payer message);
  failed ← lift (has_error_key response);
  if failed : bool then
    raise (KeyError
      ("An error was encountered while building the transaction. Error: "
         ++ py_str response))
  else
    blob ← lift (result ← subscript response "result";
                  transaction ← subscript result "transaction";
                  subscript transaction "blob");
    hash_of_blob_to_sign ←
      lift (result ← subscript response "result";
            transaction ← subscript result "transaction";
            subscript transaction "hashOfBlobToSign");
    sg ← signer;
    i ← index;
    signed_data ← invoke (signer_sign hash_of_blob_to_sign i)
                          (key_sign sg hash_of_blob_to_sign i);
    p' ← provider;
    sg' ← signer;
    i' ← index;
    pk ← invoke (signer_public_key i') (key_public_key sg' i');
    response' ← invoke (provider_finalize_transaction blob signed_data pk true)
                        (rpc_finalize_transaction p' blob signed_data pk true);
    failed' ← lift (has_error_key response');
    if failed' : bool then
      error ← lift (subscript response' "error");
      raise (Exception
        ("An error has occured when finalizing the transaction: " ++ py_str error))
    else lift (extract_txid response').

(** *** The public interface

    What a caller can do with a wallet object: read one of the three
    properties, assign to one of them, or call one of the three methods.
    The properties are declared with [@property] and no setter, so an
    assignment raises [AttributeError] and stores nothing. *)

Inductive Value : Type :=
| VProvider (p : Provider)
| VSigner (sg : Signer)
| VInt (z : Z)
| VBalances (m : gmap pykey Z)
| VJson (v : json).

Inductive PublicOp : Type :=
| read_provider
| read_signer
| read_index
| assign_provider (p : Provider)
| assign_signer (sg : Signer)
| assign_index (i : Z)
| call_get_balances
| call_get_balance_of_token (token_rri : json)
| call_build_sign_and_send_transaction
    (actions : ActionArg Action) (fee_payer : string)
    (message : option string) (encrypt_message : bool).

Definition is_assignment (op : PublicOp) : bool :=
  match op with
  | assign_provider _ | assign_signer _ | assign_index _ => true
  | _ => false
  end.

(** Assignment to a property that has no setter. *)
Definition assign_read_only : M Value := raise AttributeError.

Definition perform (op : PublicOp) : M Value :=
  match op with
  | read_provider => p ← provider; mret (VProvider p)
  | read_signer => sg ← signer; mret (VSigner sg)
  | read_index => i ← index; mret (VInt i)
  | assign_provider _ | assign_signer _ | assign_index _ => assign_read_only
  | call_get_balances => m ← get_balances; mret (VBalances m)
  | call_get_balance_of_token token_rri =>
      b ← get_balance_of_token token_rri; mret (VInt b)
  | call_build_sign_and_send_transaction actions fee_payer message encrypt_message =>
      tx ← build_sign_and_send_transaction actions fee_payer message encrypt_message;
      mret (VJson tx)
  end.

(** ** The vocabulary of the specification, read on the code *)

(** The value found by following [path] through nested objects. *)
Fixpoint field_at (path : list string) (v : json) : option json :=
  match path with
  | [] => Some v
  | k :: rest =>
      match v with
      | JDict items => x ← dict_get k items; field_at rest x
      | _ => None
      end
  end.

(** [v[k1][k2]...] for the keys of [path], from left to right. *)
Fixpoint subscripts (path : list string) (v : json) : Exc json :=
  match path with
  | [] => OK v
  | k :: rest => x ← subscript v k; subscripts rest x
  end.

(** An envelope is a top-level object; the presence of the key [error]
    alone tells an error envelope from a success envelope. *)
Definition error_envelope (v : json) : Prop :=
  ∃ items, v = JDict items ∧ "error" ∈ items.*1.

Definition success_envelope (v : json) : Prop :=
  ∃ items, v = JDict items ∧ "error" ∉ items.*1.

Inductive Phase : Type :=
| balance_phase
| build_phase
| finalize_phase.

(** The exceptions raised right after the [error] key was found in an
    envelope, one per remote operation. *)
Inductive RemoteError : Phase -> PyExc -> Prop :=
| remote_balance payload :
    RemoteError balance_phase
      (KeyError ("Encountered an error when trying to get the balances: "
                   ++ py_str payload))
| remote_build payload :
    RemoteError build_phase
      (KeyError ("An error was encountered while building the transaction. Error: "
                   ++ py_str payload))
| remote_finalize payload :
    RemoteError finalize_phase
      (Exception ("An error has occured when finalizing the transaction: "
                    ++ py_str payload)).

(** The fields the wallet reads from a success payload. *)
Definition response_fields : list string :=
  ["result"; "transaction"; "blob"; "hashOfBlobToSign"; "txID";
   "tokenBalances"; "rri"; "amount"].

(** The exceptions of a failed field access on a success payload: a
    required key is missing, or the value in its place is no object. *)
Inductive MalformedResponse : PyExc -> Prop :=
| missing_field k : k ∈ response_fields -> MalformedResponse (KeyError k)
| not_an_object : MalformedResponse TypeError.

(** The collaborator calls made by [m] when started in [s]. *)
Definition calls_made {A} (m : M A) (s : State) : list Call :=
  drop (length (trace s)) (trace (m s).2).

(** One entry of [tokenBalances] holding the balance [n] under key [k]. *)
Definition entry_has (token_info : json) (kn : pykey * Z) : Prop :=
  ∃ rri amount,
    field_at ["rri"] token_info = Some rri ∧
    field_at ["amount"] token_info = Some amount ∧
    hashable rri = OK kn.1 ∧
    py_int amount = OK kn.2.

(** The balance request was answered with [response], leaving state [s']. *)
Definition balances_answer (s : State) (response : json) (s' : State) : Prop :=
  ∃ address w1 w2,
    let mainnet := is_mainnet (network (__provider (self s))) in
    key_wallet_address (__signer (self s)) (__index (self s)) mainnet (world s)
      = (OK address, w1) ∧
    rpc_get_balances (__provider (self s)) address w1 = (OK response, w2) ∧
    s' = mkState (self s) w2
           (trace s ++ [signer_wallet_address (__index (self s)) mainnet;
                        provider_get_balances address]).

(** *** Further vocabulary for the behaviour at the edges *)

(** A decoded value that is an object (a Python dict). *)
Definition is_object (v : json) : bool :=
  match v with
  | JDict _ => true
  | _ => false
  end.

(** A value that can not be hashed (a Python list or dict). *)
Definition is_unhashable (v : json) : bool :=
  match v with
  | JList _ | JDict _ => true
  | _ => false
  end.

(** The ways in which one entry of [tokenBalances] is unusable, with the
    exception each one produces: the entry is no object, it has no [rri],
    it has no [amount], [int()] rejects the amount, or the RRI can not be
    a dict key. *)
Inductive entry_fails : json -> PyExc -> Prop :=
| entry_no_object v :
    is_object v = false -> entry_fails v TypeError
| entry_no_rri items :
    "rri" ∉ items.*1 -> entry_fails (JDict items) (KeyError "rri")
| entry_no_amount items :
    "rri" ∈ items.*1 -> "amount" ∉ items.*1 ->
    entry_fails (JDict items) (KeyError "amount")
| entry_bad_amount items amount e :
    "rri" ∈ items.*1 -> dict_get "amount" items = Some amount ->
    py_int amount = Raise e ->
    entry_fails (JDict items) e
| entry_bad_rri items rri amount n :
    dict_get "rri" items = Some rri -> dict_get "amount" items = Some amount ->
    py_int amount = OK n -> is_unhashable rri = true ->
    entry_fails (JDict items) TypeError.

(** The account index a call to the signer is made for. *)
Definition call_index (c : Call) : option Z :=
  match c with
  | signer_wallet_address i _ | signer_sign _ i | signer_public_key i => Some i
  | _ => None
  end.

(** The four calls of a complete run of
    [build_sign_and_send_transaction], in order. *)
Definition pipeline (actions : ActionArg Action) (fee_payer : string)
    (message : option string) (blob digest : json) (i : Z)
    (signature pk : string) : list Call :=
  [provider_build_transaction actions fee_payer message;
   signer_sign digest i;
   signer_public_key i;
   provider_finalize_transaction blob signature pk true].

(** [m] leaves the wallet object as it found it. *)
Definition keeps_self {A} (m : M A) : Prop :=
  ∀ s, self (m s).2 = self s.

(** The dict obtained from [acc] by storing the pairs of [kns] one after
    the other. *)
Definition fill (acc : gmap pykey Z) (kns : list (pykey * Z)) : gmap pykey Z :=
  foldl (λ m kn, <[kn.1 := kn.2]> m) acc kns.

(** The build request was answered with [response], leaving the world [w]. *)
Definition build_answer (s : State) (actions : ActionArg Action)
    (fee_payer : string) (message : option string)
    (response : json) (w : World) : Prop :=
  rpc_build_transaction (__provider (self s)) actions fee_payer message (world s)
    = (OK response, w).

(** The build phase succeeded: a success envelope holding both the blob
    and the digest to sign. *)
Definition build_succeeds (s : State) (actions : ActionArg Action)
    (fee_payer : string) (message : option string)
    (blob digest : json) (w : World) : Prop :=
  ∃ response,
    build_answer s actions fee_payer message response w ∧
    success_envelope response ∧
    field_at ["result"; "transaction"; "blob"] response = Some blob ∧
    field_at ["result"; "transaction"; "hashOfBlobToSign"] response = Some digest.

(** After a successful build phase the signer produced a signature and
    its public key, and the finalize request was answered with
    [response], leaving state [s']. *)
Definition finalize_answer (s : State) (actions : ActionArg Action)
    (fee_payer : string) (message : option string)
    (response : json) (s' : State) : Prop :=
  ∃ blob digest w1 signature w2 pk w3 w4,
    let i := __index (self s) in
    build_succeeds s actions fee_payer message blob digest w1 ∧
    key_sign (__signer (self s)) digest i w1 = (OK signature, w2) ∧
    key_public_key (__signer (self s)) i w2 = (OK pk, w3) ∧
    rpc_finalize_transaction (__provider (self s)) blob signature pk true w3
      = (OK response, w4) ∧
    s' = mkState (self s) w4
           (trace s ++ [provider_build_transaction actions fee_payer message;
                        signer_sign digest i;
                        signer_public_key i;
                        provider_finalize_transaction blob signature pk true]).

End Wallet.

(** ** A concrete setting for the examples

    Actions are named by strings, the world counts the requests served by
    the ledger, and the two builtins are given for the values that occur
    in the examples. *)

Module Scenario.

Definition join (sep : string) (parts : list string) : string :=
  match parts with
  | [] => ""
  | p :: ps => foldl (λ acc q, acc ++ sep ++ q) p ps
  end.

(** [repr(v)] for strings that need no escaping and small integers. *)
Fixpoint repr (v : json) : string :=
  match v with
  | JNull => "None"
  | JBool true => "True"
  | JBool false => "False"
  | JInt z => pretty z
  | JStr s => "'" ++ s ++ "'"
  | JList l => "[" ++ join ", " (map repr l) ++ "]"
  | JDict items =>
      "{" ++ join ", " (map (λ kv, "'" ++ kv.1 ++ "': " ++ repr kv.2) items) ++ "}"
  end.

Definition str (v : json) : string :=
  match v with
  | JStr s => s
  | _ => repr v
  end.

Definition digit (c : ascii) : option Z :=
  let n := Z.of_nat (nat_of_ascii c) in
  if bool_decide (48 ≤ n ≤ 57)%Z then Some (n - 48) else None.

Fixpoint digits (s : string) (acc : Z) : option Z :=
  match s with
  | EmptyString => Some acc
  | String c rest => d ← digit c; digits rest (10 * acc + d)
  end.

(** [int(s)] for plain decimal literals with an optional minus sign. *)
Definition decimal (s : string) : option Z :=
  match s with
  | EmptyString => None
  | String "-" EmptyString => None
  | String "-" rest => Z.opp <$> digits rest 0
  | _ => digits s 0
  end.

Definition builtins : Builtins := {| py_str := str; int_of_str := decimal |}.

(** A ledger client whose three operations answer with fixed replies. *)
Definition ledger (balances build finalize : Exc json) : @Provider string nat :=
  {| network := MAINNET;
     rpc_get_balances := λ _ n, (balances, S n);
     rpc_build_transaction := λ _ _ _ n, (build, S n);
     rpc_finalize_transaction := λ _ _ _ _ n, (finalize, S n) |}.

(** A signer that knows account 0 only and signs one digest. *)
Definition keyring : @Signer nat :=
  {| key_wallet_address := λ i _ n,
       (if Z.eqb i 0 then OK "rdx1qsp0" else Raise (Foreign "IndexError"), n);
     key_sign := λ data i n,
       (match data with
        | JStr "deadbeef" =>
            if Z.eqb i 0 then OK "sig000" else Raise (Foreign "IndexError")
        | _ => Raise (Foreign "SigningError")
        end, n);
     key_public_key := λ i n,
       (if Z.eqb i 0 then OK "02ab" else Raise (Foreign "IndexError"), n) |}.

Definition start (balances build finalize : Exc json) : @State string nat :=
  mkState (__init__ (ledger balances build finalize) keyring None) 0%nat [].

Definition obj (items : list (string * json)) : json := JDict items.

Definition built : json :=
  obj [("result", obj [("transaction",
         obj [("blob", JStr "ab12"); ("hashOfBlobToSign", JStr "deadbeef")])])].

Definition insufficient_funds : json :=
  obj [("error", obj [("message", JStr "insufficient funds")])].

Definition tx1 : json := obj [("result", obj [("txID", JStr "TX1")])].

Definition tx2 : json :=
  obj [("result", obj [("transaction", obj [("txID", JStr "TX2")])])].

Definition transfer : ActionArg string := action_list ["transfer 5 xrd"].

(** A build response that holds the digest but no blob. *)
Definition built_without_blob : json :=
  obj [("result", obj [("transaction",
         obj [("hashOfBlobToSign", JStr "deadbeef")])])].

Definition token (rri amount : string) : json :=
  obj [("rri", JStr rri); ("amount", JStr amount)].

Definition balances_of (infos : list json) : json :=
  obj [("result", obj [("tokenBalances", JList infos)])].

Definition two_tokens : list json :=
  [token "xrd_rr1" "1500"; token "gum_rr1" "7"].

Definition repeated_token : list json :=
  [token "xrd_rr1" "1500"; token "gum_rr1" "7"; token "xrd_rr1" "2"].

Definition submit : @M string nat json :=
  build_sign_and_send_transaction (builtins := builtins)
    transfer "rdx1payer" None false.

Definition build_call : @Call string :=
  provider_build_transaction transfer "rdx1payer" None.

Definition full_run : list (@Call string) :=
  [build_call; signer_sign (JStr "deadbeef") 0; signer_public_key 0;
   provider_finalize_transaction (JStr "ab12") "sig000" "02ab" true].

(** The state in which every run of the examples ends when it went
    through [calls], the ledger having served [served] requests. *)
Definition finish (s : @State string nat) (served : nat)
    (calls : list (@Call string)) : @State string nat :=
  mkState (self s) served calls.

(** Further collaborators and replies for the behaviour at the edges. *)

(** A signer that signs anything for any account but can not give a
    public key. *)
Definition locked_keyring : @Signer nat :=
  {| key_wallet_address := λ _ _ n, (OK "rdx1qsp0", n);
     key_sign := λ _ _ n, (OK "sig000", n);
     key_public_key := λ _ n, (Raise (Foreign "LockedError"), n) |}.

Definition start_with (sg : @Signer nat) (index : option Z)
    (balances build finalize : Exc json) : @State string nat :=
  mkState (__init__ (ledger balances build finalize) sg index) 0%nat [].

Definition offline : Exc json := Raise (Foreign "ConnectionError").

(** A build response whose digest the keyring refuses to sign. *)
Definition built_for_another_key : json :=
  obj [("result", obj [("transaction",
         obj [("blob", JStr "ab12"); ("hashOfBlobToSign", JStr "cafe")])])].

Definition address_call : @Call string := signer_wallet_address 0 true.

Definition balance_calls : list (@Call string) :=
  [address_call; provider_get_balances "rdx1qsp0"].

End Scenario.

(** * Properties *)

Section Facts.

Context {Action World : Type} {builtins : Builtins}.

Implicit Types (s t : @State Action World) (v response : json).

(** ** Lookups *)

Lemma dict_get_None k items : dict_get k items = None ↔ k ∉ items.*1.
Proof.
  induction items as [|[k' x] items IH]; simpl.
  - split; [intros _; apply not_elem_of_nil | done].
  - rewrite not_elem_of_cons. destruct (String.eqb_spec k k') as [->|Hne].
    + split; [done | intros [? _]; done].
    + rewrite IH. split; [by split | by intros [_ ?]].
Qed.

Lemma dict_get_is_Some k items : k ∈ items.*1 → is_Some (dict_get k items).
Proof.
  intros Hin. destruct (dict_get k items) eqn:E; [by eexists|].
  by apply dict_get_None in E.
Qed.

Lemma has_error_key_error v : error_envelope v → has_error_key v = OK true.
Proof.
  intros (items & -> & Hin). unfold has_error_key. simpl.
  by rewrite bool_decide_eq_true_2.
Qed.

Lemma has_error_key_success v : success_envelope v → has_error_key v = OK false.
Proof.
  intros (items & -> & Hin). unfold has_error_key. simpl.
  by rewrite bool_decide_eq_false_2.
Qed.

Lemma subscripts_field_at path v x :
  field_at path v = Some x → subscripts path v = OK x.
Proof.
  revert v. induction path as [|k path IH]; intros v; simpl.
  - by intros [= ->].
  - destruct v; try done. unfold subscript.
    destruct (dict_get k items) as [y|]; simpl; [apply IH | done].
Qed.

Lemma subscripts_missing path v :
  field_at path v = None →
  ∃ e, subscripts path v = Raise e ∧
       (e = TypeError ∨ ∃ k, k ∈ path ∧ e = KeyError k).
Proof.
  revert v. induction path as [|k path IH]; intros v; simpl; [done|].
  destruct v; try (intros _; eexists; split; [done | by left]).
  unfold subscript. destruct (dict_get k items) as [y|]; simpl.
  - intros Hy. destruct (IH _ Hy) as (e & -> & [->|(k' & Hk' & ->)]).
    + eexists; split; [done | by left].
    + eexists; split; [done | right; exists k'; split; [by right | done]].
  - intros _. eexists; split; [done | right; exists k; split; [by left | done]].
Qed.

Lemma subscripts_two v k1 k2 :
  (x ← subscript v k1; subscript x k2) = subscripts [k1; k2] v.
Proof.
  simpl. destruct (subscript v k1) as [x|]; simpl; [|done].
  by destruct (subscript x k2).
Qed.

Lemma subscripts_three v k1 k2 k3 :
  (x ← subscript v k1; y ← subscript x k2; subscript y k3)
  = subscripts [k1; k2; k3] v.
Proof.
  simpl. destruct (subscript v k1) as [x|]; simpl; [|done].
  destruct (subscript x k2) as [y|]; simpl; [|done].
  by destruct (subscript y k3).
Qed.

Lemma field_at_cons k path v x :
  field_at (k :: path) v = Some x →
  ∃ y, subscript v k = OK y ∧ field_at path y = Some x.
Proof.
  destruct v; simpl; try done.
  destruct (dict_get k items) as [y|]; simpl; [|done].
  intros Hy. by exists y.
Qed.

Lemma subscript_field_at v k x : field_at [k] v = Some x → subscript v k = OK x.
Proof. intros Hx. by destruct (field_at_cons _ _ _ _ Hx) as (y & -> & [= ->]). Qed.

Lemma field_at_three k1 k2 k3 v x :
  field_at [k1; k2; k3] v = Some x →
  ∃ y z, subscript v k1 = OK y ∧ subscript y k2 = OK z ∧ subscript z k3 = OK x.
Proof.
  intros Hx. apply field_at_cons in Hx as (y & Hy & Hx).
  apply field_at_cons in Hx as (z & Hz & Hx).
  apply subscript_field_at in Hx. by exists y, z.
Qed.

Lemma missing_is_malformed path e :
  path ⊆ response_fields →
  e = TypeError ∨ (∃ k, k ∈ path ∧ e = KeyError k) →
  MalformedResponse e.
Proof.
  intros Hsub [->|(k & Hk & ->)]; [apply not_an_object|].
  apply missing_field. by apply Hsub.
Qed.

(** X17.  The two kinds of failure never coincide: the argument of the
    [KeyError] (or [Exception]) raised for an envelope with an [error] key
    is a message, never the name of a field, so it can be told from the
    [KeyError] of a missing field although both are of the same class. *)
Lemma remote_error_is_not_malformed phase e :
  RemoteError phase e → ¬ MalformedResponse e.
Proof.
  intros Hremote Hmalformed.
  destruct Hremote; inversion Hmalformed as [k Hk|]; subst;
    unfold response_fields in Hk; simpl in Hk;
    repeat (apply elem_of_cons in Hk as [Hk|Hk]; [discriminate Hk|]);
    by apply elem_of_nil in Hk.
Qed.

(** ** Running the methods *)

Ltac run_method :=
  cbv [build_sign_and_send_transaction get_balances get_balance_of_token
       mbind mret M_bind M_ret bind ret raise lift attr invoke
       provider signer index].

Lemma calls_made_app {A} (m : M A) s r w cs :
  m s = (r, mkState (self s) w (trace s ++ cs)) → calls_made m s = cs.
Proof.
  intros E. unfold calls_made. rewrite E. simpl.
  by rewrite drop_app_length.
Qed.

Lemma build_error_run actions fee_payer message encrypt_message s response w :
  build_answer s actions fee_payer message response w →
  error_envelope response →
  build_sign_and_send_transaction actions fee_payer message encrypt_message s
  = (Raise (KeyError
       ("An error was encountered while building the transaction. Error: "
          ++ py_str response)),
     mkState (self s) w
       (trace s ++ [provider_build_transaction actions fee_payer message])).
Proof.
  intros Hb Herr. run_method. rewrite Hb. simpl.
  by rewrite (has_error_key_error _ Herr).
Qed.

(** C1.  When the build request is answered by an envelope with an
    [error] key, [build_sign_and_send_transaction] raises the build-phase
    remote error (a [KeyError] carrying the rendered response); the build
    request is the only call made, so neither the signer's [sign] nor the
    provider's [finalize_transaction] is invoked. *)
Theorem build_error_stops_before_signing
    actions fee_payer message encrypt_message s response w :
  build_answer s actions fee_payer message response w →
  error_envelope response →
  let submit :=
    build_sign_and_send_transaction actions fee_payer message encrypt_message in
  ∃ e,
    submit s = (Raise e,
                mkState (self s) w
                  (trace s ++ [provider_build_transaction actions fee_payer message])) ∧
    RemoteError build_phase e ∧
    calls_made submit s = [provider_build_transaction actions fee_payer message] ∧
    (∀ data i, signer_sign data i ∉ calls_made submit s) ∧
    (∀ blob sig pk now,
       provider_finalize_transaction blob sig pk now ∉ calls_made submit s).
Proof.
  intros Hb Herr submit.
  pose proof (build_error_run _ _ _ encrypt_message _ _ _ Hb Herr) as Hrun.
  pose proof (calls_made_app _ _ _ _ _ Hrun) as Hcalls. fold submit in Hrun, Hcalls.
  eexists. split; [exact Hrun|]. split; [apply remote_build|].
  split; [exact Hcalls|]. rewrite Hcalls.
  split; intros; rewrite list_elem_of_singleton; discriminate.
Qed.

(** C5.  A build response that is a success envelope but lacks the blob
    or the digest makes [build_sign_and_send_transaction] fail with the
    exception of the failed field access ([KeyError] naming the missing
    field, or [TypeError] where an object was expected); nothing is
    signed or finalized. *)
Theorem build_without_blob_or_digest_fails
    actions fee_payer message encrypt_message s response w :
  build_answer s actions fee_payer message response w →
  success_envelope response →
  field_at ["result"; "transaction"; "blob"] response = None ∨
  field_at ["result"; "transaction"; "hashOfBlobToSign"] response = None →
  ∃ e,
    build_sign_and_send_transaction actions fee_payer message encrypt_message s
    = (Raise e,
       mkState (self s) w
         (trace s ++ [provider_build_transaction actions fee_payer message])) ∧
    MalformedResponse e.
Proof.
  intros Hb Hok Hmiss. run_method. rewrite Hb. simpl.
  rewrite (has_error_key_success _ Hok). simpl.
  change (Exc_bind _ _ ?f ?x) with (mbind f x).
  rewrite !subscripts_three.
  destruct (field_at ["result"; "transaction"; "blob"] response) as [blob|] eqn:Hblob.
  - destruct Hmiss as [|Hdigest]; [done|].
    rewrite (subscripts_field_at _ _ _ Hblob).
    destruct (subscripts_missing _ _ Hdigest) as (e & -> & He).
    exists e. split; [done|].
    eapply missing_is_malformed; [|exact He]. unfold response_fields. set_solver.
  - destruct (subscripts_missing _ _ Hblob) as (e & -> & He).
    exists e. split; [done|].
    eapply missing_is_malformed; [|exact He]. unfold response_fields. set_solver.
Qed.

Lemma submit_calls_after_build
    actions fee_payer message encrypt_message s blob digest w :
  build_succeeds s actions fee_payer message blob digest w →
  ∃ r w' rest,
    build_sign_and_send_transaction actions fee_payer message encrypt_message s
    = (r, mkState (self s) w'
            (trace s ++ provider_build_transaction actions fee_payer message
                     :: signer_sign digest (__index (self s)) :: rest)) ∧
    ∀ data i, signer_sign data i ∉ rest.
Proof.
  intros (response & Hb & Hok & Hblob & Hdigest).
  apply field_at_three in Hblob as (r1 & t1 & Hr1 & Ht1 & Hblob).
  apply field_at_three in Hdigest as (r2 & t2 & Hr2 & Ht2 & Hdigest).
  assert (r2 = r1) as -> by congruence. assert (t2 = t1) as -> by congruence.
  run_method. rewrite Hb. simpl. rewrite (has_error_key_success _ Hok). simpl.
  rewrite Hr1. simpl. rewrite Ht1. simpl. rewrite Hblob, Hdigest. simpl.
  destruct (key_sign _ _ _ _) as [[signature|e] w2]; simpl;
    [|eexists _, _, []; rewrite <- app_assoc; split; [done | set_solver]].
  destruct (key_public_key _ _ _) as [[pk|e] w3]; simpl;
    [|eexists _, _, [_]; rewrite <- !app_assoc; split; [done | set_solver]].
  destruct (rpc_finalize_transaction _ _ _ _ _ _) as [[response'|e] w4]; simpl;
    [|eexists _, _, [_; _]; rewrite <- !app_assoc; split; [done | set_solver]].
  destruct (has_error_key response') as [[]|e]; simpl;
    [destruct (subscript response' "error"); simpl| |];
    eexists _, _, [_; _]; rewrite <- !app_assoc; (split; [done | set_solver]).
Qed.

(** C4.  After a successful build phase the first call that follows the
    build request is [sign], its first argument is the very value stored
    under [hashOfBlobToSign] in the build response and its second argument
    is the wallet's index; no other [sign] call is made. *)
Theorem sign_receives_remote_digest
    actions fee_payer message encrypt_message s blob digest w :
  build_succeeds s actions fee_payer message blob digest w →
  let calls :=
    calls_made
      (build_sign_and_send_transaction actions fee_payer message encrypt_message) s in
  take 2 calls = [provider_build_transaction actions fee_payer message;
                  signer_sign digest (__index (self s))] ∧
  ∀ data i, signer_sign data i ∈ calls → data = digest ∧ i = __index (self s).
Proof.
  intros Hbuild calls.
  destruct (submit_calls_after_build _ _ _ encrypt_message _ _ _ _ Hbuild)
    as (r & w' & rest & Hrun & Hrest).
  subst calls. rewrite (calls_made_app _ _ _ _ _ Hrun). split; [done|].
  intros data i. rewrite !elem_of_cons. intros [?|[[= -> ->]|Hin]]; [done|done|].
  by apply Hrest in Hin.
Qed.

Lemma submit_after_finalize
    actions fee_payer message encrypt_message s response s' :
  finalize_answer s actions fee_payer message response s' →
  build_sign_and_send_transaction actions fee_payer message encrypt_message s
  = (failed ← has_error_key response;
     if failed : bool then
       error ← subscript response "error";
       Raise (Exception
         ("An error has occured when finalizing the transaction: " ++ py_str error))
     else extract_txid response,
     s').
Proof.
  intros (blob & digest & w1 & signature & w2 & pk & w3 & w4
          & Hbuild & Hsign & Hpk & Hfin & ->).
  destruct Hbuild as (built & Hb & Hok & Hblob & Hdigest).
  apply field_at_three in Hblob as (r1 & t1 & Hr1 & Ht1 & Hblob).
  apply field_at_three in Hdigest as (r2 & t2 & Hr2 & Ht2 & Hdigest).
  assert (r2 = r1) as -> by congruence. assert (t2 = t1) as -> by congruence.
  run_method. rewrite Hb. simpl. rewrite (has_error_key_success _ Hok). simpl.
  rewrite Hr1. simpl. rewrite Ht1. simpl. rewrite Hblob, Hdigest. simpl.
  rewrite Hsign. simpl. rewrite Hpk. simpl. rewrite Hfin. simpl.
  rewrite <- !app_assoc. simpl.
  destruct (has_error_key response) as [[]|e]; simpl; [|done|done].
  by destruct (subscript response "error").
Qed.

Lemma extract_txid_top response tx :
  field_at ["result"; "txID"] response = Some tx → extract_txid response = OK tx.
Proof.
  intros Htx. unfold extract_txid.
  by rewrite subscripts_two, (subscripts_field_at _ _ _ Htx).
Qed.

Lemma extract_txid_nested response tx :
  field_at ["result"; "txID"] response = None →
  field_at ["result"; "transaction"; "txID"] response = Some tx →
  extract_txid response = OK tx.
Proof.
  intros Htop Htx. unfold extract_txid.
  rewrite subscripts_two, subscripts_three, (subscripts_field_at _ _ _ Htx).
  by destruct (subscripts_missing _ _ Htop) as (e & -> & _).
Qed.

Lemma extract_txid_neither response :
  field_at ["result"; "txID"] response = None →
  field_at ["result"; "transaction"; "txID"] response = None →
  ∃ e, extract_txid response = Raise e ∧ MalformedResponse e.
Proof.
  intros Htop Hnested. unfold extract_txid.
  rewrite subscripts_two, subscripts_three.
  destruct (subscripts_missing _ _ Hnested) as (e' & -> & He').
  destruct (subscripts_missing _ _ Htop) as (e & -> & _).
  exists e'. split; [done|].
  eapply missing_is_malformed; [|exact He']. unfold response_fields. set_solver.
Qed.

(** C2.  When the finalize request is answered by a success envelope:
    a [txID] directly under [result] is returned, whatever else the
    payload holds (so this shape has priority); failing that, a [txID]
    under [result.transaction] is returned; and when neither is present
    the call fails with the exception of the failed field access. *)
Theorem finalize_success_yields_txid
    actions fee_payer message encrypt_message s response s' :
  finalize_answer s actions fee_payer message response s' →
  success_envelope response →
  let submit :=
    build_sign_and_send_transaction actions fee_payer message encrypt_message in
  (∀ tx, field_at ["result"; "txID"] response = Some tx → submit s = (OK tx, s')) ∧
  (∀ tx, field_at ["result"; "txID"] response = None →
         field_at ["result"; "transaction"; "txID"] response = Some tx →
         submit s = (OK tx, s')) ∧
  (field_at ["result"; "txID"] response = None →
   field_at ["result"; "transaction"; "txID"] response = None →
   ∃ e, submit s = (Raise e, s') ∧ MalformedResponse e).
Proof.
  intros Hfin Hok submit. subst submit.
  rewrite (submit_after_finalize _ _ _ encrypt_message _ _ _ Hfin).
  rewrite (has_error_key_success _ Hok). simpl.
  split; [|split].
  - intros tx Htx. by rewrite (extract_txid_top _ _ Htx).
  - intros tx Htop Htx. by rewrite (extract_txid_nested _ _ Htop Htx).
  - intros Htop Hnested.
    destruct (extract_txid_neither _ Htop Hnested) as (e & -> & He). by exists e.
Qed.

(** C3.  When the build phase succeeded and the finalize request is
    answered by an envelope with an [error] key, the call raises the
    finalize-phase remote error, an [Exception] carrying the rendered
    error payload; it differs from every build-phase remote error, which
    is a [KeyError]. *)
Theorem finalize_error_is_told_apart
    actions fee_payer message encrypt_message s response s' :
  finalize_answer s actions fee_payer message response s' →
  error_envelope response →
  ∃ payload e,
    field_at ["error"] response = Some payload ∧
    e = Exception
          ("An error has occured when finalizing the transaction: " ++ py_str payload) ∧
    build_sign_and_send_transaction actions fee_payer message encrypt_message s
      = (Raise e, s') ∧
    RemoteError finalize_phase e ∧
    ∀ e', RemoteError build_phase e' → e ≠ e'.
Proof.
  intros Hfin Herr.
  rewrite (submit_after_finalize _ _ _ encrypt_message _ _ _ Hfin).
  rewrite (has_error_key_error _ Herr). simpl.
  destruct Herr as (items & -> & Hin).
  destruct (dict_get_is_Some _ _ Hin) as [payload Hpayload].
  exists payload, (Exception
    ("An error has occured when finalizing the transaction: " ++ py_str payload)).
  simpl. rewrite Hpayload. simpl.
  split; [done|]. split; [done|]. split; [done|].
  split; [apply remote_finalize|].
  intros e' He'. inversion He'. discriminate.
Qed.

Lemma submit_first_call actions fee_payer message encrypt_message s :
  ∃ r w rest,
    build_sign_and_send_transaction actions fee_payer message encrypt_message s
    = (r, mkState (self s) w
            (trace s ++ provider_build_transaction actions fee_payer message :: rest)).
Proof.
  run_method.
  destruct (rpc_build_transaction _ _ _ _ _) as [[response|e] w1]; simpl;
    [|by eexists _, _, []].
  repeat match goal with
  | |- context [has_error_key ?v] => destruct (has_error_key v) as [[]|]; simpl
  | |- context [subscript ?v ?k] => destruct (subscript v k); simpl
  | |- context [key_sign ?sg ?d ?i ?w] => destruct (key_sign sg d i w) as [[]]; simpl
  | |- context [key_public_key ?sg ?i ?w] =>
      destruct (key_public_key sg i w) as [[]]; simpl
  | |- context [rpc_finalize_transaction ?p ?b ?sd ?pk ?now ?w] =>
      destruct (rpc_finalize_transaction p b sd pk now w) as [[]]; simpl
  end;
  rewrite <- ?app_assoc; by eexists _, _, _.
Qed.

(** C6.  The build request carries the actions, the fee payer and the
    message exactly as they were given, and it is the first call of every
    run; the [encrypt_message] flag takes no part in it: the whole run,
    calls and result, is the same whether the flag is set or not. *)
Theorem encrypt_message_is_dropped actions fee_payer message encrypt_message s :
  head (calls_made
          (build_sign_and_send_transaction actions fee_payer message encrypt_message) s)
  = Some (provider_build_transaction actions fee_payer message) ∧
  build_sign_and_send_transaction actions fee_payer message encrypt_message s
  = build_sign_and_send_transaction actions fee_payer message (negb encrypt_message) s.
Proof.
  split; [|done].
  destruct (submit_first_call actions fee_payer message encrypt_message s)
    as (r & w & rest & Hrun).
  by rewrite (calls_made_app _ _ _ _ _ Hrun).
Qed.

(** ** Balances *)

Implicit Types (kns : list (pykey * Z)) (m acc : gmap pykey Z).

Lemma token_entry_has token_info kn :
  entry_has token_info kn → token_entry token_info = OK kn.
Proof.
  intros (rri & amount & Hr & Ha & Hk & Hn). unfold token_entry.
  rewrite (subscript_field_at _ _ _ Hr), (subscript_field_at _ _ _ Ha). simpl.
  rewrite Hn. simpl. rewrite Hk. simpl. by destruct kn.
Qed.

Lemma dict_comprehension_fill infos kns acc :
  Forall2 entry_has infos kns →
  dict_comprehension infos acc = OK (fill acc kns).
Proof.
  intros Hall. revert acc.
  induction Hall as [|info kn infos kns Hkn _ IH]; intros acc; simpl; [done|].
  rewrite (token_entry_has _ _ Hkn). simpl. apply IH.
Qed.

Lemma fill_lookup_notin acc kns k :
  k ∉ kns.*1 → fill acc kns !! k = acc !! k.
Proof.
  revert acc. induction kns as [|[k' n] kns IH]; intros acc; simpl; [done|].
  rewrite not_elem_of_cons. intros [Hne Hnot].
  rewrite IH by done. by rewrite lookup_insert_ne.
Qed.

Lemma fill_lookup_last acc before k n after :
  k ∉ after.*1 → fill acc (before ++ (k, n) :: after) !! k = Some n.
Proof.
  intros Hnot. unfold fill. rewrite foldl_app. simpl.
  fold (fill (<[k:=n]> (foldl (λ m kn, <[kn.1:=kn.2]> m) acc before)) after).
  rewrite fill_lookup_notin by done. apply lookup_insert_eq.
Qed.

Lemma fill_list_to_map kns : fill ∅ kns = list_to_map (reverse kns).
Proof.
  induction kns as [|[k n] kns IH] using rev_ind; [done|].
  unfold fill in *. rewrite foldl_app, reverse_app. simpl. by rewrite IH.
Qed.

Lemma NoDup_keys_reverse kns : NoDup kns.*1 → NoDup (reverse kns).*1.
Proof. intros Hnd. by rewrite fmap_reverse, reverse_Permutation. Qed.

Lemma fill_size kns : NoDup kns.*1 → size (fill ∅ kns) = length kns.
Proof.
  intros Hnd. rewrite fill_list_to_map.
  rewrite map_size_list_to_map by by apply NoDup_keys_reverse.
  apply length_reverse.
Qed.

Lemma fill_permutation kns kns' :
  NoDup kns.*1 → kns ≡ₚ kns' → fill ∅ kns = fill ∅ kns'.
Proof.
  intros Hnd Hperm. rewrite !fill_list_to_map.
  apply list_to_map_proper; [by apply NoDup_keys_reverse|].
  by rewrite !reverse_Permutation.
Qed.

Lemma fill_dom acc kns : dom (fill acc kns) = dom acc ∪ list_to_set kns.*1.
Proof.
  revert acc. induction kns as [|[k n] kns IH]; intros acc; simpl.
  - set_solver.
  - rewrite IH, dom_insert_L. set_solver.
Qed.

Lemma size_list_to_set_le (l : list pykey) :
  (size (list_to_set l : gset pykey) ≤ length l)%nat.
Proof.
  induction l as [|k l IH]; simpl; [done|].
  rewrite size_union_alt, size_singleton.
  assert (size (list_to_set l ∖ {[k]} : gset pykey)
          ≤ size (list_to_set l : gset pykey))%nat
    by (apply subseteq_size; set_solver).
  lia.
Qed.

Lemma size_list_to_set_dup (l : list pykey) :
  ¬ NoDup l → (size (list_to_set l : gset pykey) < length l)%nat.
Proof.
  induction l as [|k l IH]; simpl.
  - intros []. constructor.
  - intros Hdup. destruct (decide (k ∈ l)) as [Hin|Hnin].
    + replace ({[k]} ∪ list_to_set l : gset pykey) with (list_to_set l : gset pykey)
        by set_solver.
      pose proof (size_list_to_set_le l). lia.
    + assert (¬ NoDup l) as Hl by (intros Hl; apply Hdup; by constructor).
      specialize (IH Hl). rewrite size_union by set_solver.
      rewrite size_singleton. lia.
Qed.

Lemma fill_size_dup kns :
  ¬ NoDup kns.*1 → (size (fill ∅ kns) < length kns)%nat.
Proof.
  intros Hdup. rewrite <- size_dom, fill_dom, dom_empty_L, (left_id_L ∅ (∪)).
  rewrite <- (length_fmap fst kns). by apply size_list_to_set_dup.
Qed.

Lemma get_balances_run s response s' :
  balances_answer s response s' →
  get_balances s
  = (failed ← has_error_key response;
     if failed : bool then
       Raise (KeyError
         ("Encountered an error when trying to get the balances: "
            ++ py_str response))
     else balances_of_response response,
     s').
Proof.
  intros (address & w1 & w2 & Haddr & Hresp & ->).
  run_method. rewrite Haddr. simpl. rewrite Hresp. simpl.
  rewrite <- app_assoc. simpl.
  by destruct (has_error_key response) as [[]|e].
Qed.

Lemma balances_of_success response infos kns :
  field_at ["result"; "tokenBalances"] response = Some (JList infos) →
  Forall2 entry_has infos kns →
  balances_of_response response = OK (fill ∅ kns).
Proof.
  intros Hinfos Hall. unfold balances_of_response.
  apply field_at_cons in Hinfos as (result & -> & Hinfos). simpl.
  apply subscript_field_at in Hinfos as ->. simpl.
  by apply dict_comprehension_fill.
Qed.

Lemma get_balances_success s response s' infos kns :
  balances_answer s response s' →
  success_envelope response →
  field_at ["result"; "tokenBalances"] response = Some (JList infos) →
  Forall2 entry_has infos kns →
  get_balances s = (OK (fill ∅ kns), s').
Proof.
  intros Hans Hok Hinfos Hall.
  rewrite (get_balances_run _ _ _ Hans), (has_error_key_success _ Hok). simpl.
  by rewrite (balances_of_success _ _ _ Hinfos Hall).
Qed.

(** C7.  When the balance request is answered by an envelope with an
    [error] key, [get_balances] raises the balance-phase remote error.
    When it is answered by a success envelope whose [tokenBalances] list
    holds N entries, each with an [rri] and an [amount] that [int()]
    accepts, and the RRIs are pairwise distinct, [get_balances] returns a
    mapping of size N that maps the RRI of every entry to the integer
    value of its amount; any reordering of the list yields the same
    mapping. *)
Theorem get_balances_maps_each_rri s response s' :
  balances_answer s response s' →
  (error_envelope response →
   ∃ e, get_balances s = (Raise e, s') ∧ RemoteError balance_phase e) ∧
  (∀ infos kns,
     success_envelope response →
     field_at ["result"; "tokenBalances"] response = Some (JList infos) →
     Forall2 entry_has infos kns →
     NoDup kns.*1 →
     ∃ m,
       get_balances s = (OK m, s') ∧
       size m = length infos ∧
       (∀ k n, (k, n) ∈ kns → m !! k = Some n) ∧
       (∀ t reordered t' infos',
          balances_answer t reordered t' →
          success_envelope reordered →
          field_at ["result"; "tokenBalances"] reordered = Some (JList infos') →
          infos ≡ₚ infos' →
          get_balances t = (OK m, t'))).
Proof.
  intros Hans. split.
  - intros Herr. rewrite (get_balances_run _ _ _ Hans), (has_error_key_error _ Herr).
    eexists. split; [done | apply remote_balance].
  - intros infos kns Hok Hinfos Hall Hnd. exists (fill ∅ kns).
    split; [by eapply get_balances_success|].
    split; [rewrite fill_size by done; symmetry; by eapply Forall2_length|].
    split.
    + intros k n Hin. apply list_elem_of_split in Hin as (before & after & ->).
      apply fill_lookup_last.
      rewrite fmap_app, fmap_cons in Hnd. simpl in Hnd.
      apply NoDup_app in Hnd as (_ & _ & Hnd). by apply NoDup_cons in Hnd as [? _].
    + intros t reordered t' infos' Hans' Hok' Hinfos' Hperm.
      destruct (Permutation_Forall2 Hperm Hall) as (kns' & Hperm' & Hall').
      rewrite (get_balances_success _ _ _ _ _ Hans' Hok' Hinfos' Hall').
      by rewrite (fill_permutation _ _ Hnd Hperm').
Qed.

(** C10.  When several entries of [tokenBalances] carry the same RRI, the
    mapping returned by [get_balances] holds, for every RRI, the amount of
    the last entry with that RRI, and it has strictly fewer keys than the
    list has entries. *)
Theorem repeated_rri_keeps_last s response s' infos kns :
  balances_answer s response s' →
  success_envelope response →
  field_at ["result"; "tokenBalances"] response = Some (JList infos) →
  Forall2 entry_has infos kns →
  ∃ m,
    get_balances s = (OK m, s') ∧
    (∀ (before after : list (pykey * Z)) k n,
       kns = (before ++ (k, n) :: after)%list → k ∉ after.*1 → m !! k = Some n) ∧
    (¬ NoDup kns.*1 → (size m < length infos)%nat).
Proof.
  intros Hans Hok Hinfos Hall. exists (fill ∅ kns).
  split; [by eapply get_balances_success|]. split.
  - intros before after k n -> Hlast. by apply fill_lookup_last.
  - intros Hdup. rewrite (Forall2_length _ _ _ Hall). by apply fill_size_dup.
Qed.

(** C8.  [get_balance_of_token] returns 0 when the token is not a key of
    the mapping produced by [get_balances], without raising, and the
    amount stored in that mapping otherwise. *)
Theorem get_balance_of_token_defaults_to_zero token_rri k s m s' :
  get_balances s = (OK m, s') →
  hashable token_rri = OK k →
  (m !! k = None → get_balance_of_token token_rri s = (OK 0, s')) ∧
  (∀ n, m !! k = Some n → get_balance_of_token token_rri s = (OK n, s')).
Proof.
  intros Hrun Hk.
  assert (get_balance_of_token token_rri s
          = (OK (match m !! k with None => 0 | Some b => b end), s')) as ->.
  { cbv [get_balance_of_token mbind mret M_bind M_ret bind ret lift].
    rewrite Hrun, Hk. done. }
  split; [by intros -> | by intros n ->].
Qed.

(** ** The configuration is never written *)

Lemma keeps_ret {A} (a : A) : keeps_self (mret a : @M Action World A).
Proof. done. Qed.

Lemma keeps_raise {A} e : keeps_self (raise e : @M Action World A).
Proof. done. Qed.

Lemma keeps_lift {A} (x : Exc A) : keeps_self (lift x : @M Action World A).
Proof. done. Qed.

Lemma keeps_attr {A} (field : @Wallet Action World → A) : keeps_self (attr field).
Proof. done. Qed.

Lemma keeps_invoke {A} (c : @Call Action) (oracle : World → Exc A * World) :
  keeps_self (invoke c oracle).
Proof. intros s. unfold invoke. by destruct (oracle (world s)). Qed.

Lemma keeps_bind {A B} (m : @M Action World A) (f : A → M B) :
  keeps_self m → (∀ a, keeps_self (f a)) → keeps_self (m ≫= f).
Proof.
  intros Hm Hf s. cbv [mbind M_bind bind]. specialize (Hm s).
  destruct (m s) as [[a|e] s1]; simpl in *; [|done].
  by rewrite Hf.
Qed.

Lemma keeps_if {A} (b : bool) (m1 m2 : @M Action World A) :
  keeps_self m1 → keeps_self m2 → keeps_self (if b then m1 else m2).
Proof. by destruct b. Qed.

Create HintDb frame.
#[local] Hint Resolve keeps_ret keeps_raise keeps_lift keeps_attr keeps_invoke
  keeps_if : frame.
#[local] Hint Extern 2 (keeps_self _) =>
  apply keeps_bind; [|intros ?] : frame.

Lemma get_balances_keeps_self : keeps_self (get_balances : @M Action World _).
Proof. unfold get_balances, provider, signer, index. auto 20 with frame. Qed.

Lemma get_balance_of_token_keeps_self token_rri :
  keeps_self (get_balance_of_token token_rri : @M Action World _).
Proof.
  unfold get_balance_of_token.
  apply keeps_bind; [apply get_balances_keeps_self|]. intros balances.
  apply keeps_bind; [apply keeps_lift|]. intros k. apply keeps_ret.
Qed.

Lemma build_sign_and_send_transaction_keeps_self
    actions fee_payer message encrypt_message :
  keeps_self (build_sign_and_send_transaction actions fee_payer message encrypt_message
              : @M Action World _).
Proof.
  unfold build_sign_and_send_transaction, provider, signer, index.
  auto 40 with frame.
Qed.

(** C9.  No operation of the public interface changes the wallet's
    provider, signer or index: reading a property and calling
    [get_balances], [get_balance_of_token] or
    [build_sign_and_send_transaction] leave the three attributes as
    [__init__] set them, and an assignment to one of the three properties
    raises [AttributeError] and leaves them unchanged as well. *)
Theorem configuration_is_read_only (op : PublicOp) s :
  self (perform op s).2 = self s ∧
  (is_assignment op = true → (perform op s).1 = Raise AttributeError).
Proof.
  split.
  - revert s. fold (keeps_self (perform op)).
    destruct op; simpl; unfold assign_read_only, provider, signer, index;
      auto using get_balances_keeps_self, get_balance_of_token_keeps_self,
                 build_sign_and_send_transaction_keeps_self with frame.
  - by destruct op.
Qed.

(** ** Further properties of [get_balances] *)

(** X1.  [get_balances] lets the exceptions of its collaborators through
    unchanged: when the signer fails to derive the address the provider is
    not asked at all, and when the provider's request fails that failure
    is the outcome. *)
Theorem get_balances_passes_failures_through s e :
  let i := __index (self s) in
  let mainnet := is_mainnet (network (__provider (self s))) in
  (∀ w,
     key_wallet_address (__signer (self s)) i mainnet (world s) = (Raise e, w) →
     get_balances s
     = (Raise e, mkState (self s) w (trace s ++ [signer_wallet_address i mainnet]))) ∧
  (∀ address w1 w2,
     key_wallet_address (__signer (self s)) i mainnet (world s) = (OK address, w1) →
     rpc_get_balances (__provider (self s)) address w1 = (Raise e, w2) →
     get_balances s
     = (Raise e,
        mkState (self s) w2
          (trace s ++ [signer_wallet_address i mainnet; provider_get_balances address]))).
Proof.
  intros i mainnet. split.
  - intros w Haddr. run_method. subst i mainnet. by rewrite Haddr.
  - intros address w1 w2 Haddr Hresp. run_method. subst i mainnet.
    rewrite Haddr. simpl. rewrite Hresp. simpl. by rewrite <- app_assoc.
Qed.

(** X2.  The balances are requested for the wallet's own address: the
    signer is asked for the address of the wallet's index, on the main
    network exactly when the provider's network is [MAINNET], and the
    address it returns is the one sent to the provider.  These are the
    only two calls, whatever the provider answers. *)
Theorem get_balances_asks_for_own_address s address w :
  let i := __index (self s) in
  let mainnet := bool_decide (network (__provider (self s)) = MAINNET) in
  key_wallet_address (__signer (self s)) i mainnet (world s) = (OK address, w) →
  calls_made get_balances s
  = [signer_wallet_address i mainnet; provider_get_balances address].
Proof.
  intros i mainnet Haddr.
  assert (mainnet = is_mainnet (network (__provider (self s)))) as Hnet
    by (subst mainnet; by destruct (network _)).
  subst i. rewrite Hnet in *. clear Hnet mainnet.
  unfold calls_made. run_method. rewrite Haddr. simpl.
  destruct (rpc_get_balances _ _ _) as [[response|e] w2]; simpl.
  - destruct (has_error_key response) as [[]|e]; simpl;
      by rewrite <- app_assoc, drop_app_length.
  - by rewrite <- app_assoc, drop_app_length.
Qed.

(** X3.  A balance response that is no object (a list, a string, a
    number, [null]) has no [keys] method: [get_balances] raises
    [AttributeError]. *)
Theorem get_balances_rejects_non_object s response s' :
  balances_answer s response s' →
  is_object response = false →
  get_balances s = (Raise AttributeError, s').
Proof.
  intros Hans Hno. rewrite (get_balances_run _ _ _ Hans).
  by destruct response.
Qed.

(** X4.  A success envelope without [result] or without
    [result.tokenBalances] makes [get_balances] fail with the exception of
    the failed field access. *)
Theorem get_balances_without_token_list_fails s response s' :
  balances_answer s response s' →
  success_envelope response →
  field_at ["result"; "tokenBalances"] response = None →
  ∃ e, get_balances s = (Raise e, s') ∧ MalformedResponse e.
Proof.
  intros Hans Hok Hmiss.
  rewrite (get_balances_run _ _ _ Hans), (has_error_key_success _ Hok). simpl.
  unfold balances_of_response.
  destruct (subscripts_missing _ _ Hmiss) as (e & He & Hkind).
  exists e. split.
  - simpl in He. destruct (subscript response "result") as [result|];
      simpl in He |- *; [|congruence].
    destruct (subscript result "tokenBalances"); simpl in He |- *; congruence.
  - eapply missing_is_malformed; [|exact Hkind]. unfold response_fields. set_solver.
Qed.

(** X5.  What stands in place of the token list is only iterated: an
    empty list, an empty object and the empty string all give the empty
    mapping, whereas an object or a string with content, a number, a
    boolean and [null] make [get_balances] raise [TypeError]. *)
Theorem get_balances_iterates_token_list s response s' token_balances :
  balances_answer s response s' →
  success_envelope response →
  field_at ["result"; "tokenBalances"] response = Some token_balances →
  match token_balances with
  | JList [] | JDict [] | JStr EmptyString => get_balances s = (OK ∅, s')
  | JList (_ :: _) => True
  | _ => get_balances s = (Raise TypeError, s')
  end.
Proof.
  intros Hans Hok Htb.
  rewrite (get_balances_run _ _ _ Hans), (has_error_key_success _ Hok). simpl.
  unfold balances_of_response.
  apply field_at_cons in Htb as (result & -> & Htb). simpl.
  apply subscript_field_at in Htb as ->. simpl.
  destruct token_balances as [| | |[|c rest]|[|info infos]|[|[k x] items]]; done.
Qed.

Lemma token_entry_fails token_info e :
  entry_fails token_info e → token_entry token_info = Raise e.
Proof.
  intros Hfails. unfold token_entry.
  destruct Hfails as [v Hno|items Hrri|items Hrri Hamount
                      |items amount e Hrri Hamount Hint
                      |items rri amount n Hrri Hamount Hint Hkey].
  - by destruct v.
  - apply dict_get_None in Hrri. simpl. by rewrite Hrri.
  - apply dict_get_is_Some in Hrri as [rri Hrri]. apply dict_get_None in Hamount.
    simpl. rewrite Hrri. simpl. by rewrite Hamount.
  - apply dict_get_is_Some in Hrri as [rri Hrri].
    simpl. rewrite Hrri. simpl. rewrite Hamount. simpl. by rewrite Hint.
  - simpl. rewrite Hrri. simpl. rewrite Hamount. simpl. rewrite Hint. simpl.
    by destruct rri.
Qed.

Lemma dict_comprehension_first_bad good kns bad rest acc e :
  Forall2 entry_has good kns →
  token_entry bad = Raise e →
  dict_comprehension (good ++ bad :: rest) acc = Raise e.
Proof.
  intros Hgood Hbad. revert acc.
  induction Hgood as [|info kn good kns Hkn _ IH]; intros acc; simpl.
  - by rewrite Hbad.
  - rewrite (token_entry_has _ _ Hkn). simpl. apply IH.
Qed.

(** X6.  One unusable entry spoils the whole answer: when the entries
    before it are fine and an entry is no object, lacks [rri] or
    [amount], has an amount that [int()] rejects or an RRI that can not be
    a key, [get_balances] raises the exception of that entry and returns
    no partial mapping. *)
Theorem get_balances_fails_on_first_bad_entry s response s' good kns bad rest e :
  balances_answer s response s' →
  success_envelope response →
  field_at ["result"; "tokenBalances"] response = Some (JList (good ++ bad :: rest)) →
  Forall2 entry_has good kns →
  entry_fails bad e →
  get_balances s = (Raise e, s').
Proof.
  intros Hans Hok Hinfos Hgood Hbad.
  rewrite (get_balances_run _ _ _ Hans), (has_error_key_success _ Hok). simpl.
  unfold balances_of_response.
  apply field_at_cons in Hinfos as (result & -> & Hinfos). simpl.
  apply subscript_field_at in Hinfos as ->. simpl.
  by rewrite (dict_comprehension_first_bad _ _ _ _ _ _ Hgood (token_entry_fails _ _ Hbad)).
Qed.

(** X7.  The keys of the mapping returned by [get_balances] are exactly
    the RRIs of the listed entries, repeated or not: none is dropped and
    none is invented. *)
Theorem get_balances_keys_are_the_listed_rris s response s' infos kns :
  balances_answer s response s' →
  success_envelope response →
  field_at ["result"; "tokenBalances"] response = Some (JList infos) →
  Forall2 entry_has infos kns →
  ∃ m, get_balances s = (OK m, s') ∧ ∀ k, is_Some (m !! k) ↔ k ∈ kns.*1.
Proof.
  intros Hans Hok Hinfos Hall. exists (fill ∅ kns).
  split; [by eapply get_balances_success|].
  intros k. rewrite <- elem_of_dom, fill_dom, dom_empty_L. set_solver.
Qed.

(** ** Further properties of [get_balance_of_token] *)

(** X8.  A failure of the balance request is never reported as a balance
    of 0: [get_balance_of_token] fails with the very exception of
    [get_balances], whatever the token. *)
Theorem get_balance_of_token_propagates_failure token_rri s e s' :
  get_balances s = (Raise e, s') →
  get_balance_of_token token_rri s = (Raise e, s').
Proof.
  intros Hrun. cbv [get_balance_of_token mbind M_bind bind]. by rewrite Hrun.
Qed.

Lemma get_balance_of_token_state token_rri s :
  (get_balance_of_token token_rri s).2 = (get_balances s).2.
Proof.
  cbv [get_balance_of_token mbind mret M_bind M_ret bind ret lift].
  destruct (get_balances s) as [[m|e] s1]; simpl; [|done].
  by destruct (hashable token_rri).
Qed.

(** X9.  Every query fetches afresh: [get_balance_of_token] makes the
    calls of one [get_balances] and nothing more, and leaves the wallet
    and the world as [get_balances] leaves them. *)
Theorem get_balance_of_token_fetches_once token_rri s :
  (get_balance_of_token token_rri s).2 = (get_balances s).2 ∧
  calls_made (get_balance_of_token token_rri) s = calls_made get_balances s.
Proof.
  pose proof (get_balance_of_token_state token_rri s) as Hstate.
  split; [done|]. unfold calls_made. by rewrite Hstate.
Qed.

(** X10.  A token given as a list or an object can not be looked up:
    once the balances have been fetched, [get_balance_of_token] raises
    [TypeError]. *)
Theorem get_balance_of_token_rejects_unhashable token_rri s m s' :
  get_balances s = (OK m, s') →
  is_unhashable token_rri = true →
  get_balance_of_token token_rri s = (Raise TypeError, s').
Proof.
  intros Hrun Hkey. cbv [get_balance_of_token mbind M_bind bind lift].
  rewrite Hrun. by destruct token_rri.
Qed.

(** ** Further properties of [build_sign_and_send_transaction] *)

Lemma has_error_key_false v : has_error_key v = OK false → success_envelope v.
Proof.
  destruct v; try done. unfold has_error_key. simpl.
  intros [= Hno%bool_decide_eq_false]. by eexists.
Qed.

Lemma subscripts_ok path v x : subscripts path v = OK x → field_at path v = Some x.
Proof.
  intros Hx. destruct (field_at path v) as [y|] eqn:Hy.
  - rewrite (subscripts_field_at _ _ _ Hy) in Hx. congruence.
  - destruct (subscripts_missing _ _ Hy) as (e & He & _). congruence.
Qed.

Lemma submit_run_shape actions fee_payer message encrypt_message s :
  ∃ r w cs blob digest signature pk,
    build_sign_and_send_transaction actions fee_payer message encrypt_message s
    = (r, mkState (self s) w (trace s ++ cs)) ∧
    cs ≠ [] ∧
    cs `prefix_of`
      pipeline actions fee_payer message blob digest (__index (self s)) signature pk.
Proof.
  run_method. unfold pipeline.
  destruct (rpc_build_transaction _ _ _ _ _) as [[response|e] w1]; simpl;
    [|by eexists _, _, [_], JNull, JNull, "", ""; split; [|split; [|eexists]]].
  repeat match goal with
  | |- context [has_error_key ?v] => destruct (has_error_key v) as [[]|]; simpl
  | |- context [subscript ?v ?k] => destruct (subscript v k); simpl
  | |- context [key_sign ?sg ?d ?i ?w] => destruct (key_sign sg d i w) as [[]]; simpl
  | |- context [key_public_key ?sg ?i ?w] =>
      destruct (key_public_key sg i w) as [[]]; simpl
  | |- context [rpc_finalize_transaction ?p ?b ?sd ?pk ?now ?w] =>
      destruct (rpc_finalize_transaction p b sd pk now w) as [[]]; simpl
  end;
  rewrite <- ?app_assoc; simpl;
  first
    [ by eexists _, _, [_; _; _; _], _, _, _, _; split; [|split; [|eexists]]
    | by eexists _, _, [_; _; _], JNull, _, "", ""; split; [|split; [|eexists]]
    | by eexists _, _, [_; _], JNull, _, "", ""; split; [|split; [|eexists]]
    | by eexists _, _, [_], JNull, JNull, "", ""; split; [|split; [|eexists]] ].
Qed.

(** X11.  No run makes more than the four calls of the protocol, in this
    order and each at most once: the build request with the arguments as
    given, [sign] and [public_key] for the wallet's index, and the
    finalize request with immediate submission.  Nothing is retried and
    no other operation of the collaborators is used. *)
Theorem submit_calls_follow_the_protocol actions fee_payer message encrypt_message s :
  ∃ blob digest signature pk,
    calls_made
      (build_sign_and_send_transaction actions fee_payer message encrypt_message) s
    `prefix_of`
    pipeline actions fee_payer message blob digest (__index (self s)) signature pk.
Proof.
  destruct (submit_run_shape actions fee_payer message encrypt_message s)
    as (r & w & cs & blob & digest & signature & pk & Hrun & _ & Hprefix).
  exists blob, digest, signature, pk. by rewrite (calls_made_app _ _ _ _ _ Hrun).
Qed.

(** X12.  A transaction identifier is only ever returned at the end of a
    complete run: the build phase succeeded, the signer signed and gave
    its public key, the finalize request was answered by a success
    envelope, and the identifier is the [txID] found under [result] or,
    when there is none, under [result.transaction]. *)
Theorem submit_returns_only_after_finalize
    actions fee_payer message encrypt_message s tx s' :
  build_sign_and_send_transaction actions fee_payer message encrypt_message s
    = (OK tx, s') →
  ∃ response,
    finalize_answer s actions fee_payer message response s' ∧
    success_envelope response ∧
    (field_at ["result"; "txID"] response = Some tx ∨
     field_at ["result"; "txID"] response = None ∧
     field_at ["result"; "transaction"; "txID"] response = Some tx).
Proof.
  match goal with |- _ → ?G => set (Q := G) end. run_method.
  destruct (rpc_build_transaction _ _ _ _ _) as [[built|e] w1] eqn:Hb; simpl; [|done].
  destruct (has_error_key built) as [[]|e] eqn:Hok; simpl; [done| |done].
  apply has_error_key_false in Hok.
  change (Exc_bind _ _ ?f ?x) with (mbind f x). rewrite !subscripts_three.
  destruct (subscripts ["result"; "transaction"; "blob"] built)
    as [blob|e] eqn:Hblob; [|done].
  destruct (subscripts ["result"; "transaction"; "hashOfBlobToSign"] built)
    as [digest|e] eqn:Hdigest; [|done].
  simpl.
  apply subscripts_ok in Hblob, Hdigest.
  destruct (key_sign _ _ _ _) as [[signature|e] w2] eqn:Hsign; simpl; [|done].
  destruct (key_public_key _ _ _) as [[pk|e] w3] eqn:Hpk; simpl; [|done].
  destruct (rpc_finalize_transaction _ _ _ _ _ _) as [[response|e] w4] eqn:Hfin;
    simpl; [|done].
  rewrite <- !app_assoc. simpl.
  destruct (has_error_key response) as [[]|e] eqn:Hok'; simpl; [| |done].
  { by destruct (subscript response "error"). }
  apply has_error_key_false in Hok'. intros [= Htx <-].
  subst Q. exists response. split; [|split; [done|]].
  - exists blob, digest, w1, signature, w2, pk, w3, w4.
    split; [by exists built|]. done.
  - unfold extract_txid in Htx. rewrite subscripts_two, subscripts_three in Htx.
    destruct (field_at ["result"; "txID"] response) as [top|] eqn:Htop.
    + left. rewrite (subscripts_field_at _ _ _ Htop) in Htx. simpl in Htx. congruence.
    + right. split; [done|]. destruct (subscripts_missing _ _ Htop) as (e & He & _).
      rewrite He in Htx. simpl in Htx. by apply subscripts_ok.
Qed.

(** X13.  When the signer fails, nothing is sent for finalization: an
    exception of [sign] ends the run after the build request and the
    [sign] call, an exception of [public_key] ends it one call later, and
    in both cases that exception is the outcome. *)
Theorem signer_failure_prevents_finalize
    actions fee_payer message encrypt_message s blob digest w1 e :
  build_succeeds s actions fee_payer message blob digest w1 →
  let i := __index (self s) in
  let submit :=
    build_sign_and_send_transaction actions fee_payer message encrypt_message in
  (∀ w2,
     key_sign (__signer (self s)) digest i w1 = (Raise e, w2) →
     submit s
     = (Raise e,
        mkState (self s) w2
          (trace s ++ [provider_build_transaction actions fee_payer message;
                       signer_sign digest i]))) ∧
  (∀ signature w2 w3,
     key_sign (__signer (self s)) digest i w1 = (OK signature, w2) →
     key_public_key (__signer (self s)) i w2 = (Raise e, w3) →
     submit s
     = (Raise e,
        mkState (self s) w3
          (trace s ++ [provider_build_transaction actions fee_payer message;
                       signer_sign digest i; signer_public_key i]))).
Proof.
  intros (response & Hb & Hok & Hblob & Hdigest) i submit. subst i submit.
  apply field_at_three in Hblob as (r1 & t1 & Hr1 & Ht1 & Hblob).
  apply field_at_three in Hdigest as (r2 & t2 & Hr2 & Ht2 & Hdigest).
  assert (r2 = r1) as -> by congruence. assert (t2 = t1) as -> by congruence.
  split.
  - intros w2 Hsign. run_method. rewrite Hb. simpl.
    rewrite (has_error_key_success _ Hok). simpl.
    rewrite Hr1. simpl. rewrite Ht1. simpl. rewrite Hblob, Hdigest. simpl.
    rewrite Hsign. simpl. by rewrite <- !app_assoc.
  - intros signature w2 w3 Hsign Hpk. run_method. rewrite Hb. simpl.
    rewrite (has_error_key_success _ Hok). simpl.
    rewrite Hr1. simpl. rewrite Ht1. simpl. rewrite Hblob, Hdigest. simpl.
    rewrite Hsign. simpl. rewrite Hpk. simpl. by rewrite <- !app_assoc.
Qed.

(** X14.  Failures of the ledger client are passed on as they are: an
    exception of the build request ends the run at once, and an exception
    of the finalize request, raised after signing, is the outcome of the
    run; the fallback of the identifier lookup does not catch it. *)
Theorem ledger_failure_passes_through
    actions fee_payer message encrypt_message s e :
  let i := __index (self s) in
  let submit :=
    build_sign_and_send_transaction actions fee_payer message encrypt_message in
  (∀ w,
     rpc_build_transaction (__provider (self s)) actions fee_payer message (world s)
       = (Raise e, w) →
     submit s
     = (Raise e,
        mkState (self s) w
          (trace s ++ [provider_build_transaction actions fee_payer message]))) ∧
  (∀ blob digest w1 signature w2 pk w3 w4,
     build_succeeds s actions fee_payer message blob digest w1 →
     key_sign (__signer (self s)) digest i w1 = (OK signature, w2) →
     key_public_key (__signer (self s)) i w2 = (OK pk, w3) →
     rpc_finalize_transaction (__provider (self s)) blob signature pk true w3
       = (Raise e, w4) →
     submit s
     = (Raise e,
        mkState (self s) w4
          (trace s ++ pipeline actions fee_payer message blob digest i signature pk))).
Proof.
  intros i submit. subst i submit. split.
  - intros w Hb. run_method. by rewrite Hb.
  - intros blob digest w1 signature w2 pk w3 w4
      (response & Hb & Hok & Hblob & Hdigest) Hsign Hpk Hfin.
    apply field_at_three in Hblob as (r1 & t1 & Hr1 & Ht1 & Hblob).
    apply field_at_three in Hdigest as (r2 & t2 & Hr2 & Ht2 & Hdigest).
    assert (r2 = r1) as -> by congruence. assert (t2 = t1) as -> by congruence.
    run_method. rewrite Hb. simpl. rewrite (has_error_key_success _ Hok). simpl.
    rewrite Hr1. simpl. rewrite Ht1. simpl. rewrite Hblob, Hdigest. simpl.
    rewrite Hsign. simpl. rewrite Hpk. simpl. rewrite Hfin. simpl.
    by rewrite <- !app_assoc.
Qed.

(** X15.  A response that is no object has no [keys] method, so the check
    for the [error] key itself raises [AttributeError]: after the build
    request nothing is signed, and after the finalize request no
    identifier is looked for. *)
Theorem submit_rejects_non_object_responses
    actions fee_payer message encrypt_message s response :
  is_object response = false →
  let submit :=
    build_sign_and_send_transaction actions fee_payer message encrypt_message in
  (∀ w,
     build_answer s actions fee_payer message response w →
     submit s
     = (Raise AttributeError,
        mkState (self s) w
          (trace s ++ [provider_build_transaction actions fee_payer message]))) ∧
  (∀ s',
     finalize_answer s actions fee_payer message response s' →
     submit s = (Raise AttributeError, s')).
Proof.
  intros Hno submit. subst submit. split.
  - intros w Hb. run_method. rewrite Hb. simpl. by destruct response.
  - intros s' Hfin. rewrite (submit_after_finalize _ _ _ encrypt_message _ _ _ Hfin).
    by destruct response.
Qed.

(** ** Every operation uses the configured account *)

Lemma get_balances_run_shape s :
  ∃ r w cs address,
    get_balances s = (r, mkState (self s) w (trace s ++ cs)) ∧
    cs `prefix_of`
      [signer_wallet_address (__index (self s))
         (is_mainnet (network (__provider (self s))));
       provider_get_balances address].
Proof.
  run_method.
  destruct (key_wallet_address _ _ _ _) as [[address|e] w1]; simpl;
    [|by eexists _, _, [_], ""; split; [|eexists]].
  destruct (rpc_get_balances _ _ _) as [[response|e] w2]; simpl;
    [destruct (has_error_key response) as [[]|e]; simpl|];
    rewrite <- app_assoc; by eexists _, _, [_; _], _; split; [|eexists].
Qed.

Lemma calls_made_unchanged {A} (m : M A) s r : m s = (r, s) → calls_made m s = [].
Proof. intros E. unfold calls_made. rewrite E. simpl. apply drop_all. Qed.

Lemma calls_made_wrapped {A B} (m : M A) (f : A → B) s :
  calls_made (x ← m; mret (f x)) s = calls_made m s.
Proof.
  unfold calls_made. cbv [mbind mret M_bind M_ret bind ret].
  by destruct (m s) as [[a|e] s1].
Qed.

(** X16.  Whatever is done through the public interface, the signer is
    only ever asked about the account the wallet was created for: every
    call to [wallet_address], [sign] or [public_key] carries the wallet's
    index. *)
Theorem signer_calls_use_the_wallet_index (op : PublicOp) s c i :
  c ∈ calls_made (perform op) s →
  call_index c = Some i →
  i = __index (self s).
Proof.
  assert (∀ c, c ∈ calls_made get_balances s →
               call_index c = Some i → i = __index (self s)) as Hbalances.
  { intros c'. destruct (get_balances_run_shape s)
      as (r & w & cs & address & Hrun & k & Hk).
    rewrite (calls_made_app _ _ _ _ _ Hrun). intros Hin.
    assert (c' ∈ (cs ++ k)%list) as Hin' by (apply elem_of_app; by left).
    rewrite <- Hk in Hin'. apply elem_of_cons in Hin' as [->|Hin']; [by intros [= <-]|].
    apply list_elem_of_singleton in Hin' as ->. done. }
  destruct op.
  1-6: by erewrite calls_made_unchanged by reflexivity; intros ?%elem_of_nil.
  all: simpl.
  - rewrite calls_made_wrapped. apply Hbalances.
  - rewrite calls_made_wrapped.
    unfold calls_made at 1. rewrite get_balance_of_token_state. apply Hbalances.
  - rewrite calls_made_wrapped.
    destruct (submit_run_shape actions fee_payer message encrypt_message s)
      as (r & w & cs & blob & digest & signature & pk & Hrun & _ & k & Hk).
    rewrite (calls_made_app _ _ _ _ _ Hrun). intros Hin.
    assert (c ∈ (cs ++ k)%list) as Hin' by (apply elem_of_app; by left).
    rewrite <- Hk in Hin'. unfold pipeline in Hin'.
    repeat (apply elem_of_cons in Hin' as [->|Hin']; [by intros [= <-]|]).
    by apply elem_of_nil in Hin'.
Qed.

End Facts.

(** * Examples: the theorems at work in the concrete setting *)

Section Examples.

Import Scenario.

Local Existing Instance Scenario.builtins.

Lemma built_succeeds balances finalize :
  build_succeeds (start balances (OK built) finalize) transfer "rdx1payer" None
    (JStr "ab12") (JStr "deadbeef") 1%nat.
Proof.
  exists built. split; [reflexivity|]. split; [|split; reflexivity].
  eexists. split; [reflexivity|]. simpl. set_solver.
Defined.

Lemma reaches_finalize balances response :
  let s := start balances (OK built) (OK response) in
  finalize_answer s transfer "rdx1payer" None response (finish s 2 full_run).
Proof.
  intros s. exists (JStr "ab12"), (JStr "deadbeef"), 1%nat, "sig000", 1%nat, "02ab", 1%nat, 2%nat.
  split; [apply built_succeeds|]. by repeat split.
Defined.

Lemma holds_no_error (items : list (string * json)) :
  bool_decide ("error" ∉ items.*1) = true → success_envelope (JDict items).
Proof. intros Hno%bool_decide_eq_true. by exists items. Defined.

Lemma holds_error (items : list (string * json)) :
  bool_decide ("error" ∈ items.*1) = true → error_envelope (JDict items).
Proof. intros Hin%bool_decide_eq_true. by exists items. Defined.

(** The build request is answered with "insufficient funds": the run stops
    there with the build-phase error and the signer is not asked. *)
Lemma build_error_stops_before_signing_witness :
  let s := start (OK JNull) (OK insufficient_funds) (OK tx1) in
  build_answer s transfer "rdx1payer" None insufficient_funds 1%nat ∧
  error_envelope insufficient_funds ∧
  ∃ e, submit s = (Raise e, finish s 1 [build_call]) ∧
       RemoteError build_phase e ∧
       ∀ data i, signer_sign data i ∉ calls_made submit s.
Proof.
  intros s.
  assert (build_answer s transfer "rdx1payer" None insufficient_funds 1%nat) as Hb
    by reflexivity.
  assert (error_envelope insufficient_funds) as Herr by (by apply holds_error).
  split; [exact Hb|]. split; [exact Herr|].
  destruct (build_error_stops_before_signing _ _ _ false _ _ _ Hb Herr)
    as (e & Hrun & Hremote & _ & Hsign & _).
  exists e. by repeat split.
Defined.

(** A message sent with [encrypt_message = True]: the build request holds
    the message as given and the run is the one made without the flag. *)
Lemma encrypt_message_is_dropped_witness :
  let s := start (OK JNull) (OK built) (OK tx1) in
  let secret := build_sign_and_send_transaction (builtins := Scenario.builtins)
                  transfer "rdx1payer" (Some "secret") in
  head (calls_made (secret true) s)
  = Some (provider_build_transaction transfer "rdx1payer" (Some "secret")) ∧
  secret true s = secret false s.
Proof.
  intros s secret.
  apply (encrypt_message_is_dropped transfer "rdx1payer" (Some "secret") true s).
Defined.

(** The two shapes of a finalize result, and a result with neither. *)
Lemma finalize_success_yields_txid_witness :
  let s1 := start (OK JNull) (OK built) (OK tx1) in
  let s2 := start (OK JNull) (OK built) (OK tx2) in
  let empty := obj [("result", obj [])] in
  let s3 := start (OK JNull) (OK built) (OK empty) in
  finalize_answer s1 transfer "rdx1payer" None tx1 (finish s1 2 full_run) ∧
  success_envelope tx1 ∧
  submit s1 = (OK (JStr "TX1"), finish s1 2 full_run) ∧
  submit s2 = (OK (JStr "TX2"), finish s2 2 full_run) ∧
  ∃ e, submit s3 = (Raise e, finish s3 2 full_run) ∧ MalformedResponse e.
Proof.
  intros s1 s2 empty s3.
  pose proof (reaches_finalize (OK JNull) tx1) as H1.
  pose proof (reaches_finalize (OK JNull) tx2) as H2.
  pose proof (reaches_finalize (OK JNull) empty) as H3.
  assert (success_envelope tx1) as Hok1 by (by apply holds_no_error).
  assert (success_envelope tx2) as Hok2 by (by apply holds_no_error).
  assert (success_envelope empty) as Hok3 by (by apply holds_no_error).
  split; [exact H1|]. split; [exact Hok1|].
  split; [|split].
  - destruct (finalize_success_yields_txid _ _ _ false _ _ _ H1 Hok1) as (Htop & _ & _).
    by apply Htop.
  - destruct (finalize_success_yields_txid _ _ _ false _ _ _ H2 Hok2) as (_ & Hnested & _).
    by apply Hnested.
  - destruct (finalize_success_yields_txid _ _ _ false _ _ _ H3 Hok3) as (_ & _ & Hnone).
    by apply Hnone.
Defined.

(** The finalize request is answered with an error although the build
    phase went through. *)
Lemma finalize_error_is_told_apart_witness :
  let s := start (OK JNull) (OK built) (OK insufficient_funds) in
  finalize_answer s transfer "rdx1payer" None insufficient_funds (finish s 2 full_run) ∧
  error_envelope insufficient_funds ∧
  ∃ e, submit s = (Raise e, finish s 2 full_run) ∧
       RemoteError finalize_phase e ∧
       ∀ e', RemoteError build_phase e' → e ≠ e'.
Proof.
  intros s.
  pose proof (reaches_finalize (OK JNull) insufficient_funds) as Hfin.
  assert (error_envelope insufficient_funds) as Herr by (by apply holds_error).
  split; [exact Hfin|]. split; [exact Herr|].
  destruct (finalize_error_is_told_apart _ _ _ false _ _ _ Hfin Herr)
    as (payload & e & _ & _ & Hrun & Hremote & Hdiff).
  by exists e.
Defined.

(** The digest "deadbeef" of the build response is what the signer gets,
    together with the default index 0. *)
Lemma sign_receives_remote_digest_witness :
  let s := start (OK JNull) (OK built) (OK tx1) in
  build_succeeds s transfer "rdx1payer" None (JStr "ab12") (JStr "deadbeef") 1%nat ∧
  take 2 (calls_made submit s) = [build_call; signer_sign (JStr "deadbeef") 0] ∧
  ∀ data i, signer_sign data i ∈ calls_made submit s → data = JStr "deadbeef" ∧ i = 0.
Proof.
  intros s. split; [apply built_succeeds|].
  apply (sign_receives_remote_digest _ _ _ false _ _ _ _ (built_succeeds _ _)).
Defined.

(** A build response without blob. *)
Lemma build_without_blob_or_digest_fails_witness :
  let s := start (OK JNull) (OK built_without_blob) (OK tx1) in
  build_answer s transfer "rdx1payer" None built_without_blob 1%nat ∧
  success_envelope built_without_blob ∧
  field_at ["result"; "transaction"; "blob"] built_without_blob = None ∧
  ∃ e, submit s = (Raise e, finish s 1 [build_call]) ∧ MalformedResponse e.
Proof.
  intros s.
  assert (build_answer s transfer "rdx1payer" None built_without_blob 1%nat) as Hb
    by reflexivity.
  assert (success_envelope built_without_blob) as Hok by (by apply holds_no_error).
  split; [exact Hb|]. split; [exact Hok|]. split; [reflexivity|].
  apply (build_without_blob_or_digest_fails _ _ _ false _ _ _ Hb Hok).
  by left.
Defined.

Lemma balances_answered infos build finalize :
  let s := start (OK (balances_of infos)) build finalize in
  balances_answer s (balances_of infos)
    (finish s 1 [signer_wallet_address 0 true; provider_get_balances "rdx1qsp0"]).
Proof. intros s. by exists "rdx1qsp0", 0%nat, 1%nat. Defined.

Lemma token_has rri amount n :
  decimal amount = Some n → entry_has (token rri amount) (KStr rri, n).
Proof.
  intros Hn. exists (JStr rri), (JStr amount). repeat split. simpl. by rewrite Hn.
Defined.

(** Two tokens, listed in either order. *)
Lemma get_balances_maps_each_rri_witness :
  let s := start (OK (balances_of two_tokens)) (OK built) (OK tx1) in
  let t := start (OK (balances_of (reverse two_tokens))) (OK built) (OK tx1) in
  let calls := [signer_wallet_address 0 true; provider_get_balances "rdx1qsp0"] in
  balances_answer s (balances_of two_tokens) (finish s 1 calls) ∧
  success_envelope (balances_of two_tokens) ∧
  Forall2 entry_has two_tokens [(KStr "xrd_rr1", 1500); (KStr "gum_rr1", 7)] ∧
  ∃ m, get_balances s = (OK m, finish s 1 calls) ∧
       size m = 2%nat ∧
       m !! KStr "xrd_rr1" = Some 1500 ∧
       m !! KStr "gum_rr1" = Some 7 ∧
       get_balances t = (OK m, finish t 1 calls).
Proof.
  intros s t calls.
  pose proof (balances_answered two_tokens (OK built) (OK tx1)) as Hs.
  pose proof (balances_answered (reverse two_tokens) (OK built) (OK tx1)) as Ht.
  assert (success_envelope (balances_of two_tokens)) as Hok
    by (by apply holds_no_error).
  assert (success_envelope (balances_of (reverse two_tokens))) as Hok'
    by (by apply holds_no_error).
  assert (Forall2 entry_has two_tokens [(KStr "xrd_rr1", 1500); (KStr "gum_rr1", 7)])
    as Hall by (repeat constructor; by apply token_has).
  assert (NoDup [(KStr "xrd_rr1", 1500); (KStr "gum_rr1", 7)].*1) as Hnd
    by (repeat (constructor; [set_solver|]); constructor).
  split; [exact Hs|]. split; [exact Hok|]. split; [exact Hall|].
  destruct (get_balances_maps_each_rri _ _ _ Hs) as [_ Hsuccess].
  destruct (Hsuccess _ _ Hok eq_refl Hall Hnd) as (m & Hrun & Hsize & Hlookup & Horder).
  exists m. split; [exact Hrun|]. split; [exact Hsize|].
  split; [apply Hlookup; set_solver|]. split; [apply Hlookup; set_solver|].
  apply (Horder _ _ _ _ Ht Hok' eq_refl). apply Permutation_sym, reverse_Permutation.
Defined.

(** A token that is held and one that is not. *)
Lemma get_balance_of_token_defaults_to_zero_witness :
  let s := start (OK (balances_of two_tokens)) (OK built) (OK tx1) in
  let s' := finish s 1 [signer_wallet_address 0 true; provider_get_balances "rdx1qsp0"] in
  let m : gmap pykey Z := fill ∅ [(KStr "xrd_rr1", 1500); (KStr "gum_rr1", 7)] in
  get_balances s = (OK m, s') ∧
  get_balance_of_token (JStr "btc_rr1") s = (OK 0, s') ∧
  get_balance_of_token (JStr "gum_rr1") s = (OK 7, s').
Proof.
  intros s s' m.
  assert (get_balances s = (OK m, s')) as Hrun by (vm_compute; reflexivity).
  split; [exact Hrun|]. split.
  - destruct (get_balance_of_token_defaults_to_zero
                (JStr "btc_rr1") (KStr "btc_rr1") s m s' Hrun eq_refl) as [Habsent _].
    apply Habsent. vm_compute; reflexivity.
  - destruct (get_balance_of_token_defaults_to_zero
                (JStr "gum_rr1") (KStr "gum_rr1") s m s' Hrun eq_refl) as [_ Hheld].
    apply Hheld. vm_compute; reflexivity.
Defined.

(** Assigning to [index] fails and changes nothing. *)
Lemma configuration_is_read_only_witness :
  let s := start (OK JNull) (OK built) (OK tx1) in
  is_assignment (assign_index 5 : @PublicOp string nat) = true ∧
  self (perform (assign_index 5) s).2 = self s ∧
  (perform (assign_index 5) s).1 = Raise AttributeError.
Proof.
  intros s. split; [reflexivity|].
  destruct (configuration_is_read_only (assign_index 5) s) as [Hself Hfails].
  split; [exact Hself | by apply Hfails].
Defined.

(** The same RRI listed twice: the later amount is kept, and the mapping
    has two keys for three entries. *)
Lemma repeated_rri_keeps_last_witness :
  let s := start (OK (balances_of repeated_token)) (OK built) (OK tx1) in
  let calls := [signer_wallet_address 0 true; provider_get_balances "rdx1qsp0"] in
  let kns := [(KStr "xrd_rr1", 1500); (KStr "gum_rr1", 7); (KStr "xrd_rr1", 2)] in
  balances_answer s (balances_of repeated_token) (finish s 1 calls) ∧
  success_envelope (balances_of repeated_token) ∧
  Forall2 entry_has repeated_token kns ∧
  ∃ m, get_balances s = (OK m, finish s 1 calls) ∧
       m !! KStr "xrd_rr1" = Some 2 ∧
       (size m < 3)%nat.
Proof.
  intros s calls kns.
  pose proof (balances_answered repeated_token (OK built) (OK tx1)) as Hs.
  assert (success_envelope (balances_of repeated_token)) as Hok
    by (by apply holds_no_error).
  assert (Forall2 entry_has repeated_token kns) as Hall
    by (repeat constructor; by apply token_has).
  split; [exact Hs|]. split; [exact Hok|]. split; [exact Hall|].
  destruct (repeated_rri_keeps_last _ _ _ _ _ Hs Hok eq_refl Hall)
    as (m & Hrun & Hlast & Hsize).
  exists m. split; [exact Hrun|]. split.
  - apply (Hlast [(KStr "xrd_rr1", 1500); (KStr "gum_rr1", 7)] []); [done | set_solver].
  - apply Hsize. intros Hnd. apply NoDup_cons in Hnd as [Hnotin _]. set_solver.
Defined.

(** ** The further properties at work *)

Lemma balance_request_answered response build finalize :
  let s := start (OK response) build finalize in
  balances_answer s response (finish s 1 balance_calls).
Proof. intros s. by exists "rdx1qsp0", 0%nat, 1%nat. Defined.

(** An account the keyring does not know, and a ledger out of reach. *)
Lemma get_balances_passes_failures_through_witness :
  let s := start_with keyring (Some 7) (OK JNull) (OK built) (OK tx1) in
  let t := start offline (OK built) (OK tx1) in
  get_balances s
    = (Raise (Foreign "IndexError"), finish s 0 [signer_wallet_address 7 true]) ∧
  get_balances t = (Raise (Foreign "ConnectionError"), finish t 1 balance_calls).
Proof.
  intros s t. split.
  - destruct (get_balances_passes_failures_through s (Foreign "IndexError"))
      as [Hsigner _].
    by apply Hsigner.
  - destruct (get_balances_passes_failures_through t (Foreign "ConnectionError"))
      as [_ Hledger].
    by apply (Hledger "rdx1qsp0" 0%nat 1%nat).
Defined.

Lemma get_balances_asks_for_own_address_witness :
  let s := start (OK (balances_of two_tokens)) (OK built) (OK tx1) in
  calls_made get_balances s = balance_calls.
Proof.
  intros s. by apply (get_balances_asks_for_own_address s "rdx1qsp0" 0%nat).
Defined.

(** A balance response that is a list. *)
Lemma get_balances_rejects_non_object_witness :
  let s := start (OK (JList [])) (OK built) (OK tx1) in
  get_balances s = (Raise AttributeError, finish s 1 balance_calls).
Proof.
  intros s.
  by apply (get_balances_rejects_non_object _ _ _
              (balance_request_answered (JList []) _ _)).
Defined.

(** A success envelope with an empty result. *)
Lemma get_balances_without_token_list_fails_witness :
  let response := obj [("result", obj [])] in
  let s := start (OK response) (OK built) (OK tx1) in
  ∃ e, get_balances s = (Raise e, finish s 1 balance_calls) ∧ MalformedResponse e.
Proof.
  intros response s.
  apply (get_balances_without_token_list_fails _ _ _
           (balance_request_answered response _ _)); [|done].
  by apply holds_no_error.
Defined.

(** An empty object, and a string, in place of the token list. *)
Lemma get_balances_iterates_token_list_witness :
  let s := start (OK (obj [("result", obj [("tokenBalances", obj [])])]))
             (OK built) (OK tx1) in
  let t := start (OK (obj [("result", obj [("tokenBalances", JStr "none")])]))
             (OK built) (OK tx1) in
  get_balances s = (OK ∅, finish s 1 balance_calls) ∧
  get_balances t = (Raise TypeError, finish t 1 balance_calls).
Proof.
  intros s t. split.
  - apply (get_balances_iterates_token_list _ _ _ (obj [])
             (balance_request_answered _ _ _)); [|done].
    by apply holds_no_error.
  - apply (get_balances_iterates_token_list _ _ _ (JStr "none")
             (balance_request_answered _ _ _)); [|done].
    by apply holds_no_error.
Defined.

(** An amount that is no integer literal, after a good entry. *)
Lemma get_balances_fails_on_first_bad_entry_witness :
  let infos := [token "xrd_rr1" "1500"; token "gum_rr1" "seven"] in
  let s := start (OK (balances_of infos)) (OK built) (OK tx1) in
  entry_fails (token "gum_rr1" "seven") ValueError ∧
  get_balances s = (Raise ValueError, finish s 1 balance_calls).
Proof.
  intros infos s.
  assert (entry_fails (token "gum_rr1" "seven") ValueError) as Hbad.
  { apply (entry_bad_amount _ (JStr "seven")); [|done..].
    unfold token. simpl. set_solver. }
  split; [exact Hbad|].
  apply (get_balances_fails_on_first_bad_entry s (balances_of infos) _
           [token "xrd_rr1" "1500"] [(KStr "xrd_rr1", 1500)]
           (token "gum_rr1" "seven") [] ValueError
           (balance_request_answered _ _ _)); [|done| |done].
  - by apply holds_no_error.
  - repeat constructor. by apply token_has.
Defined.

Lemma get_balances_keys_are_the_listed_rris_witness :
  let s := start (OK (balances_of repeated_token)) (OK built) (OK tx1) in
  ∃ m, get_balances s = (OK m, finish s 1 balance_calls) ∧
       is_Some (m !! KStr "gum_rr1") ∧ m !! KStr "btc_rr1" = None.
Proof.
  intros s.
  destruct (get_balances_keys_are_the_listed_rris s _ _ repeated_token
              [(KStr "xrd_rr1", 1500); (KStr "gum_rr1", 7); (KStr "xrd_rr1", 2)]
              (balance_request_answered _ _ _))
    as (m & Hrun & Hkeys).
  - by apply holds_no_error.
  - done.
  - repeat constructor; by apply token_has.
  - exists m. split; [exact Hrun|]. split.
    + apply Hkeys. set_solver.
    + apply eq_None_not_Some. rewrite Hkeys. set_solver.
Defined.

(** The ledger is out of reach: the balance of a token is not 0, the
    call fails. *)
Lemma get_balance_of_token_propagates_failure_witness :
  let s := start offline (OK built) (OK tx1) in
  get_balances s = (Raise (Foreign "ConnectionError"), finish s 1 balance_calls) ∧
  get_balance_of_token (JStr "xrd_rr1") s
    = (Raise (Foreign "ConnectionError"), finish s 1 balance_calls).
Proof.
  intros s.
  assert (get_balances s
          = (Raise (Foreign "ConnectionError"), finish s 1 balance_calls)) as Hrun
    by reflexivity.
  split; [exact Hrun|]. by apply get_balance_of_token_propagates_failure.
Defined.

Lemma get_balance_of_token_rejects_unhashable_witness :
  let s := start (OK (balances_of [])) (OK built) (OK tx1) in
  get_balances s = (OK ∅, finish s 1 balance_calls) ∧
  get_balance_of_token (JList [JStr "xrd_rr1"]) s
    = (Raise TypeError, finish s 1 balance_calls).
Proof.
  intros s.
  assert (get_balances s = (OK ∅, finish s 1 balance_calls)) as Hrun
    by reflexivity.
  split; [exact Hrun|].
  by apply (get_balance_of_token_rejects_unhashable _ _ _ _ Hrun).
Defined.

(** A returned identifier traced back to its finalize response. *)
Lemma submit_returns_only_after_finalize_witness :
  let s := start (OK JNull) (OK built) (OK tx2) in
  submit s = (OK (JStr "TX2"), finish s 2 full_run) ∧
  ∃ response,
    finalize_answer s transfer "rdx1payer" None response (finish s 2 full_run) ∧
    success_envelope response ∧
    (field_at ["result"; "txID"] response = Some (JStr "TX2") ∨
     field_at ["result"; "txID"] response = None ∧
     field_at ["result"; "transaction"; "txID"] response = Some (JStr "TX2")).
Proof.
  intros s.
  assert (submit s = (OK (JStr "TX2"), finish s 2 full_run)) as Hrun by reflexivity.
  split; [exact Hrun|].
  apply (submit_returns_only_after_finalize _ _ _ false _ _ _ Hrun).
Defined.

Lemma another_key_build_succeeds sg :
  build_succeeds (start_with sg None (OK JNull) (OK built_for_another_key) (OK tx1))
    transfer "rdx1payer" None (JStr "ab12") (JStr "cafe") 1%nat.
Proof.
  exists built_for_another_key. split; [reflexivity|]. split; [|split; reflexivity].
  by apply holds_no_error.
Defined.

(** A digest the keyring does not sign, and a keyring without public
    key: the finalize request is never made. *)
Lemma signer_failure_prevents_finalize_witness :
  let s := start_with keyring None (OK JNull) (OK built_for_another_key) (OK tx1) in
  let t := start_with locked_keyring None (OK JNull) (OK built_for_another_key) (OK tx1) in
  submit s
    = (Raise (Foreign "SigningError"),
       finish s 1 [build_call; signer_sign (JStr "cafe") 0]) ∧
  submit t
    = (Raise (Foreign "LockedError"),
       finish t 1 [build_call; signer_sign (JStr "cafe") 0; signer_public_key 0]).
Proof.
  intros s t. split.
  - destruct (signer_failure_prevents_finalize _ _ _ false _ _ _ _
                (Foreign "SigningError") (another_key_build_succeeds keyring))
      as [Hsign _].
    by apply Hsign.
  - destruct (signer_failure_prevents_finalize _ _ _ false _ _ _ _
                (Foreign "LockedError") (another_key_build_succeeds locked_keyring))
      as [_ Hpk].
    by apply (Hpk "sig000" 1%nat 1%nat).
Defined.

(** The ledger out of reach at the build request, and at the finalize
    request. *)
Lemma ledger_failure_passes_through_witness :
  let s := start (OK JNull) offline (OK tx1) in
  let t := start (OK JNull) (OK built) offline in
  submit s = (Raise (Foreign "ConnectionError"), finish s 1 [build_call]) ∧
  submit t = (Raise (Foreign "ConnectionError"), finish t 2 full_run).
Proof.
  intros s t. split.
  - destruct (ledger_failure_passes_through transfer "rdx1payer" None false s
                (Foreign "ConnectionError")) as [Hbuild _].
    by apply Hbuild.
  - destruct (ledger_failure_passes_through transfer "rdx1payer" None false t
                (Foreign "ConnectionError")) as [_ Hfinalize].
    by apply (Hfinalize (JStr "ab12") (JStr "deadbeef") 1%nat "sig000" 1%nat "02ab"
                1%nat 2%nat (built_succeeds _ _)).
Defined.

(** A build response that is a list, and a finalize response that is
    [null]. *)
Lemma submit_rejects_non_object_responses_witness :
  let s := start (OK JNull) (OK (JList [])) (OK tx1) in
  let t := start (OK JNull) (OK built) (OK JNull) in
  submit s = (Raise AttributeError, finish s 1 [build_call]) ∧
  submit t = (Raise AttributeError, finish t 2 full_run).
Proof.
  intros s t. split.
  - destruct (submit_rejects_non_object_responses transfer "rdx1payer" None false s
                (JList []) eq_refl) as [Hbuild _].
    by apply Hbuild.
  - destruct (submit_rejects_non_object_responses transfer "rdx1payer" None false t
                JNull eq_refl) as [_ Hfinalize].
    apply Hfinalize. apply (reaches_finalize (OK JNull) JNull).
Defined.

(** A wallet created without an index signs for account 0. *)
Lemma signer_calls_use_the_wallet_index_witness :
  let s := start (OK JNull) (OK built) (OK tx1) in
  let op := call_build_sign_and_send_transaction transfer "rdx1payer" None false in
  signer_sign (JStr "deadbeef") 0 ∈ calls_made (perform op) s ∧
  call_index (signer_sign (JStr "deadbeef") 0 : @Call string) = Some 0 ∧
  0 = __index (self s).
Proof.
  intros s op.
  assert (signer_sign (JStr "deadbeef") 0 ∈ calls_made (perform op) s) as Hin.
  { change (signer_sign (JStr "deadbeef") 0 ∈ full_run). unfold full_run. set_solver. }
  split; [exact Hin|]. split; [reflexivity|].
  by apply (signer_calls_use_the_wallet_index op s _ 0 Hin).
Defined.

(** The [KeyError] of a refused build is not the [KeyError] of a missing
    field. *)
Lemma remote_error_is_not_malformed_witness :
  let e := KeyError
             ("An error was encountered while building the transaction. Error: "
                ++ py_str insufficient_funds) in
  RemoteError build_phase e ∧ ¬ MalformedResponse e.
Proof.
  intros e.
  assert (RemoteError build_phase e) as Hremote by apply remote_build.
  split; [exact Hremote|]. by apply (remote_error_is_not_malformed build_phase).
Defined.

End Examples.
